(* Verification model of src/bot.py (SLC Trench Scanner helper).

   The store `data` of the bot is the JSON object
     {"users": {uname: record}, "wallet_map": {wallet: uname}, "seen_tx": [sig]}
   modelled as a record of two gmaps and a list.  Timestamps are the
   `datetime.utcnow().isoformat()` strings the code writes; they are
   modelled by the instant they denote, in microseconds (the resolution of
   `datetime`), since `datetime.fromisoformat` reads back exactly what
   `isoformat` wrote.  Network calls are explicit inputs (the fetched
   transaction detail, the exported invite link) or recorded events. *)

From Stdlib Require Import ZArith String Ascii Bool.
From stdpp Require Import base gmap strings list.

Open Scope string_scope.

(* ------------------------------------------------------------------ *)
(** * Python string helpers (over ASCII text)                          *)
(* ------------------------------------------------------------------ *)

Module Py.

(** [str.lower] on one character *)
Definition lower_char (c : ascii) : ascii :=
  let n := nat_of_ascii c in
  if (Nat.leb 65 n) && (Nat.leb n 90) then ascii_of_nat (n + 32) else c.

(** [str.lower] *)
Fixpoint lower (s : string) : string :=
  match s with
  | EmptyString => EmptyString
  | String c s' => String (lower_char c) (lower s')
  end.

(** [str.isspace] on one ASCII character: \t \n \v \f \r, \x1c-\x1f, space *)
Definition is_space (c : ascii) : bool :=
  let n := nat_of_ascii c in
  ((Nat.leb 9 n) && (Nat.leb n 13)) || ((Nat.leb 28 n) && (Nat.leb n 32)).

(** [str.lstrip()] *)
Fixpoint lstrip_ws (s : string) : string :=
  match s with
  | EmptyString => EmptyString
  | String c s' => if is_space c then lstrip_ws s' else s
  end.

Fixpoint rev_str (s : string) (acc : string) : string :=
  match s with
  | EmptyString => acc
  | String c s' => rev_str s' (String c acc)
  end.

(** [str.strip()] *)
Definition strip (s : string) : string :=
  rev_str (lstrip_ws (rev_str (lstrip_ws s) EmptyString)) EmptyString.

(** [str.lstrip("@")] *)
Fixpoint lstrip_at (s : string) : string :=
  match s with
  | String "@"%char s' => lstrip_at s'
  | _ => s
  end.

(** [str.startswith(p)] *)
Definition startswith (s p : string) : bool := String.prefix p s.

(** [p in s] for strings (substring test) *)
Fixpoint contains (p s : string) : bool :=
  String.prefix p s ||
  match s with
  | EmptyString => false
  | String _ s' => contains p s'
  end.

(** [str.isalnum()] over ASCII: non-empty and every character a letter or digit *)
Definition is_alnum_char (c : ascii) : bool :=
  let n := nat_of_ascii c in
  ((Nat.leb 48 n) && (Nat.leb n 57)) || ((Nat.leb 65 n) && (Nat.leb n 90)) || ((Nat.leb 97 n) && (Nat.leb n 122)).

Fixpoint all_alnum (s : string) : bool :=
  match s with
  | EmptyString => true
  | String c s' => is_alnum_char c && all_alnum s'
  end.

Definition isalnum (s : string) : bool :=
  match s with EmptyString => false | _ => all_alnum s end.

(** [str.split()]: split on runs of whitespace, dropping empty pieces *)
Fixpoint split_aux (s : string) (cur : string) : list string :=
  match s with
  | EmptyString => match cur with EmptyString => [] | _ => [rev_str cur EmptyString] end
  | String c s' =>
      if is_space c then
        match cur with
        | EmptyString => split_aux s' EmptyString
        | _ => rev_str cur EmptyString :: split_aux s' EmptyString
        end
      else split_aux s' (String c cur)
  end.

Definition split (s : string) : list string := split_aux s EmptyString.

(** [str(n)] for a Python int *)
Fixpoint digits_pos (fuel : nat) (n : Z) (acc : string) : string :=
  match fuel with
  | O => acc
  | S f =>
      let d := ascii_of_nat (48 + Z.to_nat (n mod 10)) in
      if (n <? 10)%Z then String d acc else digits_pos f (n / 10)%Z (String d acc)
  end.

Definition str_int (z : Z) : string :=
  if (z <? 0)%Z then String "-"%char (digits_pos (S (Z.to_nat (Z.log2 (- z)))) (- z) EmptyString)
  else digits_pos (S (Z.to_nat (Z.log2 z))) z EmptyString.

(** whether [s] has a non-whitespace character, i.e. [not s.isspace()]
    for a non-empty [s] *)
Fixpoint has_nonspace (s : string) : bool :=
  match s with
  | EmptyString => false
  | String c s' => negb (is_space c) || has_nonspace s'
  end.

End Py.



(* ------------------------------------------------------------------ *)
(** * Exceptions: the fallible part of the code                        *)
(* ------------------------------------------------------------------ *)

(** A computation that either returns or raises a Python exception. *)
Inductive exc (A : Type) : Type :=
| Ok (a : A)
| Raise.
Arguments Ok {A} a.
Arguments Raise {A}.

Global Instance exc_ret : MRet exc := fun A a => Ok a.
Global Instance exc_bind : MBind exc := fun A B f m =>
  match m with Ok a => f a | Raise => Raise end.

(* ------------------------------------------------------------------ *)
(** * JSON values, as returned by [r.json()]                          *)
(* ------------------------------------------------------------------ *)

(** A JSON value as Python holds it after [json.loads]; a float is kept as
    its [repr] text, an object as the list of its (distinct) keys with
    their values in insertion order. *)
#[local] Set Warnings "-register-all".
Inductive json : Type :=
| JNull
| JBool (b : bool)
| JInt (z : Z)
| JFloat (repr : string)
| JStr (s : string)
| JArr (l : list json)
| JObj (kvs : list (string * json)).

(** Python truthiness ([bool(v)]) *)
Definition truthy (j : json) : bool :=
  match j with
  | JNull => false
  | JBool b => b
  | JInt z => negb (Z.eqb z 0)
  | JFloat r => negb (String.eqb r "0.0" || String.eqb r "-0.0")
  | JStr s => negb (String.eqb s EmptyString)
  | JArr l => negb (bool_decide (l = []))
  | JObj kvs => negb (bool_decide (kvs = []))
  end.

Fixpoint assoc (k : string) (kvs : list (string * json)) : option json :=
  match kvs with
  | [] => None
  | (k', v) :: r => if String.eqb k k' then Some v else assoc k r
  end.

(** [j.get(k, dflt)]: an [AttributeError] unless [j] is a dict *)
Definition get_default (j : json) (k : string) (dflt : json) : exc json :=
  match j with
  | JObj kvs => Ok (default dflt (assoc k kvs))
  | _ => Raise
  end.

(** [j.get(k)] *)
Definition get (j : json) (k : string) : exc json := get_default j k JNull.

(** [j.get(k1) or j.get(k2) or ...], evaluated left to right *)
Fixpoint get_or (j : json) (ks : list string) : exc json :=
  match ks with
  | [] => mret JNull
  | [k] => get j k
  | k :: ks' => v ← get j k; if truthy v then mret v else get_or j ks'
  end.

(** [for item in (v or [])]: iterating a dict yields its keys, a string its
    characters; anything else truthy is not iterable *)
Definition iter_items (v : json) : exc (list json) :=
  if truthy v then
    match v with
    | JArr l => mret l
    | JObj kvs => mret (map (fun kv => JStr kv.1) kvs)
    | JStr s => mret (map (fun c => JStr (String c EmptyString)) (list_ascii_of_string s))
    | _ => Raise
    end
  else mret [].

(** [v[0]] *)
Definition index0 (v : json) : exc json :=
  match v with
  | JArr (x :: _) => mret x
  | JStr (String c _) => mret (JStr (String c EmptyString))
  | _ => Raise   (* IndexError, KeyError or TypeError *)
  end.

(** [v.lower()]: only strings have it *)
Definition lower_of (v : json) : exc string :=
  match v with JStr s => mret (Py.lower s) | _ => Raise end.

(** ** [json.dumps] with its defaults ([ensure_ascii=True], separators
    [", "] and [": "]) *)

(** the double-quote character *)
Definition dq : string := String (ascii_of_nat 34) EmptyString.

Definition hex_digit (n : nat) : ascii := nth n (list_ascii_of_string "0123456789abcdef") "0"%char.

Definition escape_char (c : ascii) : string :=
  let n := nat_of_ascii c in
  if Nat.eqb n 34 then String "\"%char dq
  else if Nat.eqb n 92 then "\\"
  else if Nat.eqb n 10 then "\n"
  else if Nat.eqb n 13 then "\r"
  else if Nat.eqb n 9 then "\t"
  else if Nat.eqb n 8 then "\b"
  else if Nat.eqb n 12 then "\f"
  else if Nat.ltb n 32 || Nat.leb 127 n then
    "\u00" ++ String (hex_digit (n / 16)) (String (hex_digit (n mod 16)) EmptyString)
  else String c EmptyString.

Fixpoint escape (s : string) : string :=
  match s with
  | EmptyString => EmptyString
  | String c s' => escape_char c ++ escape s'
  end.

Definition dump_str (s : string) : string := dq ++ escape s ++ dq.

Fixpoint join_sep (sep : string) (l : list string) : string :=
  match l with
  | [] => EmptyString
  | [x] => x
  | x :: r => x ++ sep ++ join_sep sep r
  end.

Fixpoint dumps (j : json) : string :=
  match j with
  | JNull => "null"
  | JBool true => "true"
  | JBool false => "false"
  | JInt z => Py.str_int z
  | JFloat r => r
  | JStr s => dump_str s
  | JArr l => "[" ++ join_sep ", " (map dumps l) ++ "]"
  | JObj kvs => "{" ++ join_sep ", " (map (fun kv => dump_str kv.1 ++ ": " ++ dumps kv.2) kvs) ++ "}"
  end.


(* ------------------------------------------------------------------ *)
(** * The store                                                        *)
(* ------------------------------------------------------------------ *)

(** A membership record [data["users"][uname]]; a field is [None] when its
    key is absent from the dict. *)
Record urec := {
  join : option Z;
  last_paid : option Z;
  wallet : option string;
  user_id : option Z
}.

Definition empty_rec : urec :=
  {| join := None; last_paid := None; wallet := None; user_id := None |}.

(** The global [data] *)
Record data := {
  users : gmap string urec;
  wallet_map : gmap string string;
  seen_tx : list string
}.

(** Recipients of [send_message]: a numeric chat id or a [@handle]. *)
Inductive target :=
| ToId (uid : Z)
| ToName (name : string).

(** The texts the bot sends, one constructor per message of the code. *)
Inductive message :=
| MsgWelcome                         (* the welcome paragraph *)
| MsgInvite (link : string)          (* "Join the private SLC Trench Scanner here: {invite}" *)
| MsgMapped (uname w : string)       (* "Thanks {uname}. I mapped wallet `{w}` ..." *)
| MsgUsage                           (* "Send `/start <your_solana_wallet_address>` ..." *)
| MsgNoRecord                        (* "No join record found. Use `/start <wallet>` first ..." *)
| MsgStatus (jn : option Z) (last : option Z) (expire : option Z)
                                     (* "Joined: {join}\nLast paid: {last}\nExpires: {expire}",
                                        expire = None printing "N/A" *)
| MsgExpired.                        (* "Your 30-day access expired ..." *)

(** Externally visible effects, in the order the code performs them. *)
Inductive event :=
| Send (t : target) (m : message)
| Kick (uid : Z)
| Save.

(* ------------------------------------------------------------------ *)
(** * Configuration                                                    *)
(* ------------------------------------------------------------------ *)

Definition WALLET : string := "GFxQeqQBhgu4yLYLf7BFUBkRkhbfTnkAfwsrN9TEaTZv".

(** [int(0.15 * 1_000_000_000)]: the double product rounds to 150000000.0 *)
Definition MIN_LAMPORTS : Z := 150000000.

(** [timedelta(days=30)] in microseconds *)
Definition TTL : Z := 30 * 86400 * 1000000.

Definition WHITELIST : list string :=
  ["leopex1"; "Degenetive"; "SLCScannerBot"; "Steez431"; "cripplingdegen"; "ARC"; "MoneyMalicia"].

(** [WL_SET = set(u.lower().lstrip("@") for u in WHITELIST)] *)
Definition WL_SET : list string := map (fun u => Py.lstrip_at (Py.lower u)) WHITELIST.

(** [norm_username] *)
Definition norm_username (u : string) : string :=
  match u with EmptyString => EmptyString | _ => Py.lstrip_at (Py.lower u) end.

(** [is_whitelisted] *)
Definition is_whitelisted (username : string) : bool :=
  existsb (String.eqb (norm_username username)) WL_SET.

(* ------------------------------------------------------------------ *)
(** * Python's numeric conversions                                     *)
(* ------------------------------------------------------------------ *)

(** The two builtin conversions [handle_new_payment] applies to a transfer
    amount: [int(amt)] and [int(float(amt) * 1_000_000_000)]; [None] when
    the conversion raises.  They are Python's, not the repository's, so the
    development is generic in them. *)
Class PyNum := {
  py_int : json -> option Z;
  py_float_lamports : json -> option Z
}.

(** A concrete instance used to run the code on examples: [int()] of an
    int, a bool or a decimal integer string; the float conversion is taken
    to raise. *)
Fixpoint dec_digits (s : string) (acc : Z) : option Z :=
  match s with
  | EmptyString => Some acc
  | String c s' =>
      let n := nat_of_ascii c in
      if Nat.leb 48 n && Nat.leb n 57 then dec_digits s' (10 * acc + Z.of_nat (n - 48))%Z
      else None
  end.

Definition int_of_str (s : string) : option Z :=
  match Py.strip s with
  | EmptyString => None
  | String "-"%char (String _ _ as r) => option_map Z.opp (dec_digits r 0)
  | String "+"%char (String _ _ as r) => dec_digits r 0
  | r => dec_digits r 0
  end.

Definition py_num_ints : PyNum := {|
  py_int j := match j with
              | JInt z => Some z
              | JBool b => Some (if b then 1 else 0)%Z
              | JStr s => int_of_str s
              | _ => None
              end;
  py_float_lamports _ := None
|}.

(* ------------------------------------------------------------------ *)
(** * [grant_access_to]                                               *)
(* ------------------------------------------------------------------ *)

(** [uname = username if username.startswith("@") else ("@" + username)
    if username.isalnum() else username] *)
Definition grant_key (username : string) : string :=
  if Py.startswith username "@" then username
  else if Py.isalnum username then "@" ++ username
  else username.

(** [target = uid if uid else uname] *)
Definition send_target (uid : option Z) (uname : string) : target :=
  match uid with
  | Some z => if Z.eqb z 0 then ToName uname else ToId z
  | None => ToName uname
  end.

(** [grant_access_to(username, wallet_addr, signature)] at time [now], with
    [invite] the result of [export_invite_link] *)
Definition grant_access_to (d : data) (username wallet_addr sig : string)
    (now : Z) (invite : option string) : data * list event :=
  let uname := grant_key username in
  let u := default empty_rec (users d !! uname) in
  let u' := {| join := match join u with Some j => Some j | None => Some now end;
               last_paid := Some now;
               wallet := Some wallet_addr;
               user_id := user_id u |} in
  let d' := {| users := <[uname := u']> (users d);
               wallet_map := wallet_map d;
               seen_tx := seen_tx d |} in
  let tgt := send_target (user_id u') uname in
  (d', ([Send tgt MsgWelcome]
        ++ match invite with
           | Some l => if String.eqb l EmptyString then [] else [Send tgt (MsgInvite l)]
           | None => []
           end
        ++ [Save])%list).

(* ------------------------------------------------------------------ *)
(** * [handle_new_payment]                                            *)
(* ------------------------------------------------------------------ *)

(** The summary of a transaction in the explorer's list: its
    ["txHash"] and ["signature"] fields ([None] when absent or null). *)
Record tx_summary := {
  txHash : option string;
  signature : option string
}.

Definition str_truthy (o : option string) : bool :=
  match o with Some s => negb (String.eqb s EmptyString) | None => false end.

(** [sig = tx.get("txHash") or tx.get("signature")], [None] when falsy *)
Definition tx_sig (tx : tx_summary) : option string :=
  let v := if str_truthy (txHash tx) then txHash tx else signature tx in
  if str_truthy v then v else None.

Definition transfer_keys : list string :=
  ["nativeTransfers"; "solTransfers"; "transfers"; "tokenTransfers"; "sol_transfer"].

(** [item.get("to") or item.get("destination") or item.get("tokenAddress")] *)
Definition dest_keys : list string := ["to"; "destination"; "tokenAddress"].

(** [item.get("amount") or item.get("lamports") or item.get("value")] *)
Definition amount_keys : list string := ["amount"; "lamports"; "value"].

Definition memo_found (detail : json) : bool := Py.contains "SLC30" (dumps detail).

Section Payment.

Context `{PyNum}.

(** [lamports += int(amt)], falling back to [int(float(amt) * 1e9)], and to
    nothing when both raise *)
Definition amount_of (amt : json) : Z :=
  match py_int amt with
  | Some z => z
  | None => match py_float_lamports amt with Some z => z | None => 0%Z end
  end.

(** The contribution of one transfer [item] to [lamports]. *)
Definition item_lamports (item : json) : exc Z :=
  to ← get_or item dest_keys;
  amt ← get_or item amount_keys;
  if truthy to then
    tol ← lower_of to;
    if String.eqb tol (Py.lower WALLET) && truthy amt then mret (amount_of amt)
    else mret 0%Z
  else mret 0%Z.

Fixpoint sum_items (items : list json) (acc : Z) : exc Z :=
  match items with
  | [] => mret acc
  | it :: r => a ← item_lamports it; sum_items r (acc + a)%Z
  end.

Fixpoint sum_keys (detail : json) (ks : list string) (acc : Z) : exc Z :=
  match ks with
  | [] => mret acc
  | k :: ks' =>
      v ← get detail k;
      items ← iter_items v;
      acc' ← sum_items items acc;
      sum_keys detail ks' acc'
  end.

(** The [lamports] loop of [handle_new_payment]. *)
Definition sum_lamports (detail : json) : exc Z := sum_keys detail transfer_keys 0%Z.

(** [signer = (detail.get("feePayer") or detail.get("signer") or
    (detail.get("transaction",{}) or {}).get("message",{}).get("accountKeys", [None])[0])] *)
Definition payer (detail : json) : exc json :=
  fp ← get detail "feePayer";
  if truthy fp then mret fp else
  sg ← get detail "signer";
  if truthy sg then mret sg else
  t ← get_default detail "transaction" (JObj []);
  m ← get_default (if truthy t then t else JObj []) "message" (JObj []);
  ak ← get_default m "accountKeys" (JArr [JNull]);
  index0 ak.

(** The body of the [try] block, run on the store in which [sig] is
    already marked seen. *)
Definition payment_body (d : data) (sig : string) (detail : json)
    (now : Z) (invite : option string) : exc (data * list event) :=
  lamports ← sum_lamports detail;
  if Z.leb MIN_LAMPORTS lamports && memo_found detail then
    signer ← payer detail;
    if truthy signer then
      match signer with
      | JStr s =>
          match wallet_map d !! s with
          | Some username =>
              if String.eqb username EmptyString then mret (d, [])
              else mret (grant_access_to d username s sig now invite)
          | None => mret (d, [])
          end
      | JArr _ | JObj _ => Raise     (* unhashable key of [dict.get] *)
      | _ => mret (d, [])            (* no string key equals it *)
      end
    else mret (d, [])
  else mret (d, []).

(** [handle_new_payment(tx)], with [detail] the result of
    [get_tx_detail(sig)] (which never raises), [now] the clock and [invite]
    the result of [export_invite_link]; returns the new store, the effects
    and whether the call raised. *)
Definition handle_new_payment (d : data) (tx : tx_summary) (detail : json)
    (now : Z) (invite : option string) : data * list event * exc unit :=
  match tx_sig tx with
  | None => (d, [], mret tt)
  | Some sig =>
      if existsb (String.eqb sig) (seen_tx d) then (d, [], mret tt)
      else
        let d1 := {| users := users d; wallet_map := wallet_map d;
                     seen_tx := (seen_tx d ++ [sig])%list |} in
        match payment_body d1 sig detail now invite with
        | Ok (d2, evs) => (d2, (evs ++ [Save])%list, mret tt)
        | Raise => (d1, [Save], Raise)      (* finally: save_data(data) *)
        end
  end.

(** The grant condition of §4.1: the summed amount reaches the minimum, the
    memo marker occurs in the serialized detail, and the fee-payer (or
    first signer) is a key of the wallet map. *)
Definition qualifies (wm : gmap string string) (detail : json) : Prop :=
  exists l p u,
    sum_lamports detail = Ok l /\ (MIN_LAMPORTS <= l)%Z /\
    memo_found detail = true /\
    payer detail = Ok (JStr p) /\ wm !! p = Some u.

(** A grant shows as the welcome message, which only [grant_access_to] sends. *)
Definition welcome_sent (evs : list event) : Prop :=
  exists t, In (Send t MsgWelcome) evs.

End Payment.

(* ------------------------------------------------------------------ *)
(** * One update of [poll_telegram_updates]                           *)
(* ------------------------------------------------------------------ *)

(** [msg["from"]]: the numeric id and the optional handle *)
Record sender := {
  from_id : Z;
  from_username : option string
}.

(** [uname = ("@" + frm.get("username")) if frm.get("username") else str(frm.get("id"))] *)
Definition sender_uname (frm : sender) : string :=
  match from_username frm with
  | Some h => if String.eqb h EmptyString then Py.str_int (from_id frm) else "@" ++ h
  | None => Py.str_int (from_id frm)
  end.

(** Python truthiness of a record dict: it has at least one key. *)
Definition rec_truthy (u : urec) : bool :=
  bool_decide (is_Some (join u)) || bool_decide (is_Some (last_paid u))
  || bool_decide (is_Some (wallet u)) || bool_decide (is_Some (user_id u)).

(** [u.setdefault("join", now)] *)
Definition setdefault_join (u : urec) (now : Z) : option Z :=
  match join u with Some j => Some j | None => Some now end.

(** The body of the loop for one message with sender [frm] and text
    [raw_text], at time [now]. *)
Definition handle_message (d : data) (frm : sender) (raw_text : string) (now : Z)
    : data * list event :=
  let text := Py.strip raw_text in
  let uname := sender_uname frm in
  let uid := from_id frm in
  if Py.startswith (Py.lower text) "/start" then
    let u := default empty_rec (users d !! uname) in
    match Py.split text with
    | _ :: p1 :: _ =>
        let w := Py.strip p1 in
        let u' := {| join := setdefault_join u now; last_paid := last_paid u;
                     wallet := Some w; user_id := Some uid |} in
        ({| users := <[uname := u']> (users d);
            wallet_map := <[w := uname]> (wallet_map d);
            seen_tx := seen_tx d |},
         [Save; Send (ToId uid) (MsgMapped uname w)])
    | _ =>
        let u' := {| join := setdefault_join u now; last_paid := last_paid u;
                     wallet := wallet u; user_id := Some uid |} in
        ({| users := <[uname := u']> (users d);
            wallet_map := wallet_map d;
            seen_tx := seen_tx d |},
         [Save; Send (ToId uid) MsgUsage])
    end
  else if Py.startswith (Py.lower text) "/myjoin" then
    match users d !! uname with
    | Some info =>
        if rec_truthy info then
          (d, [Send (ToId uid)
                 (MsgStatus (join info) (last_paid info)
                    (match last_paid info with
                     | Some l => Some (l + TTL)%Z
                     | None => None
                     end))])
        else (d, [Send (ToId uid) MsgNoRecord])
    | None => (d, [Send (ToId uid) MsgNoRecord])
    end
  else (d, []).

(* ------------------------------------------------------------------ *)
(** * [daily_expiry_check]: one sweep                                 *)
(* ------------------------------------------------------------------ *)

(** [last = info.get("last_paid") or info.get("join")] *)
Definition last_active (info : urec) : option Z :=
  match last_paid info with Some l => Some l | None => join info end.

(** [data["users"].pop(uname, None)] and the removal of every wallet-map
    entry whose value is [uname] *)
Definition revoke (uname : string) (d : data) : data :=
  {| users := delete uname (users d);
     wallet_map := filter (fun kv => kv.2 <> uname) (wallet_map d);
     seen_tx := seen_tx d |}.

(** The loop body for one record, with [t] the [datetime.utcnow()] read
    for it and [net] whether the [kick_from_chat] and [send_message]
    requests went through (both swallow their exceptions). *)
Definition sweep_one (t : Z) (net : bool * bool) (uname : string) (info : urec)
    (d : data) : data * list event * bool :=
  if is_whitelisted uname then (d, [], false)
  else match last_active info with
       | None => (d, [], false)
       | Some last =>
           if Z.ltb TTL (t - last) then
             let evs := match user_id info with
                        | Some z =>
                            if Z.eqb z 0 then []
                            else ((if net.1 then [Kick z] else [])
                                  ++ (if net.2 then [Send (ToId z) MsgExpired] else []))%list
                        | None => []
                        end in
             (revoke uname d, evs, true)
           else (d, [], false)
       end.

(** The loop over the snapshot [list(data["users"].items())]; [clock i] and
    [net i] are the clock reading and the request outcomes at the [i]-th
    record. *)
Fixpoint sweep_loop (clock : nat -> Z) (net : nat -> bool * bool) (i : nat)
    (l : list (string * urec)) (d : data) (changed : bool) : data * list event * bool :=
  match l with
  | [] => (d, [], changed)
  | (k, info) :: r =>
      let '(d1, e1, c1) := sweep_one (clock i) (net i) k info d in
      let '(d2, e2, c2) := sweep_loop clock net (S i) r d1 (changed || c1) in
      (d2, (e1 ++ e2)%list, c2)
  end.

(** One sweep of [daily_expiry_check] (the body after the sleep). *)
Definition daily_sweep (d : data) (clock : nat -> Z) (net : nat -> bool * bool)
    : data * list event :=
  let '(d', evs, changed) := sweep_loop clock net 0 (map_to_list (users d)) d false in
  (d', (evs ++ if changed then [Save] else [])%list).

(** Whether the sweep revokes record [info] under key [uname] at clock
    reading [t]: not whitelisted and [t - last_active > TTL]. *)
Definition expired (t : Z) (uname : string) (info : urec) : bool :=
  negb (is_whitelisted uname) &&
  match last_active info with Some last => Z.ltb TTL (t - last) | None => false end.

(** The sweep as §4.3 and §4.4 state its effect on the store: each expired
    record of the snapshot is deleted together with its wallet-map
    entries, with nothing else consulted (no user id, no outcome of the
    removal or notification calls). *)
Fixpoint sweep_spec (clock : nat -> Z) (i : nat) (l : list (string * urec)) (d : data) : data :=
  match l with
  | [] => d
  | (k, info) :: r => sweep_spec clock (S i) r (if expired (clock i) k info then revoke k d else d)
  end.

(** A username with no record and no wallet-map entry stays so. *)
Definition gone (k : string) (d : data) : Prop :=
  users d !! k = None /\ forall w, wallet_map d !! w <> Some k.

(** ** Well-formed stores: what every store the code builds satisfies *)

(** Every record has a [join] key, and every wallet-map entry has a
    non-empty wallet and a non-empty username. *)
Definition data_wf (d : data) : Prop :=
  (forall k r, users d !! k = Some r -> is_Some (join r)) /\
  (forall w u, wallet_map d !! w = Some u -> w <> EmptyString /\ u <> EmptyString).

(* ------------------------------------------------------------------ *)
(** * One tick of [solscan_loop]                                      *)
(* ------------------------------------------------------------------ *)

Section Solscan.

Context `{PyNum}.

(** The body of [solscan_loop] after [get_last_txs_for]: the listed
    transactions are handled in order, each with the environment's answers
    at its turn (the detail [get_tx_detail] fetched, the clock, the invite
    link); an exception of [handle_new_payment] leaves the [for] loop and is
    caught by the [try] around it. *)
Fixpoint solscan_tick (d : data) (txs : list (tx_summary * json * Z * option string))
    : data * list event * exc unit :=
  match txs with
  | [] => (d, [], mret tt)
  | (tx, detail, now, inv) :: r =>
      let '(d1, e1, o1) := handle_new_payment d tx detail now inv in
      match o1 with
      | Raise => (d1, e1, Raise)
      | Ok _ =>
          let '(d2, e2, o2) := solscan_tick d1 r in
          (d2, (e1 ++ e2)%list, o2)
      end
  end.

End Solscan.

(* ------------------------------------------------------------------ *)
(** * One batch of [poll_telegram_updates]                            *)
(* ------------------------------------------------------------------ *)

(** A message: its sender and its ["text"]; [None] when the key holds a
    non-string (then [.strip()] raises), [Some ""] when the key is absent. *)
Record tg_message := {
  msg_from : sender;
  msg_text : option string
}.

(** An update: its id, its ["message"] and its ["edited_message"]. *)
Record tg_update := {
  update_id : Z;
  update_message : option tg_message;
  update_edited : option tg_message
}.

(** [upd.get("message") or upd.get("edited_message") or {}], [None] for
    the empty dict that [if not msg: continue] skips. *)
Definition update_msg (u : tg_update) : option tg_message :=
  match update_message u with
  | Some m => Some m
  | None => update_edited u
  end.

(** The updates are taken in the shapes the Telegram API gives them: an
    integer [update_id], dict [message] and [from], an integer [id] and a
    string (or absent) [username]; the raises of other shapes ([KeyError]
    on a missing [update_id], [TypeError] on ["@" + 7], [AttributeError]
    on a non-dict) are not represented, only the one of a non-string
    [text]. *)
(** The [for upd in r.get("result", [])] loop, each update with the clock at
    its turn; returns the store, the effects, the [offset] cursor and whether
    the loop was left by an exception (caught by the [try] around it). *)
Fixpoint poll_batch (d : data) (offset : option Z) (ups : list (tg_update * Z))
    : data * list event * option Z * exc unit :=
  match ups with
  | [] => (d, [], offset, mret tt)
  | (u, now) :: r =>
      let offset' := Some (update_id u + 1)%Z in
      match update_msg u with
      | None => poll_batch d offset' r
      | Some m =>
          match msg_text m with
          | None => (d, [], offset', Raise)
          | Some text =>
              let '(d1, e1) := handle_message d (msg_from m) text now in
              let '(d2, e2, o2, x) := poll_batch d1 offset' r in
              (d2, (e1 ++ e2)%list, o2, x)
          end
      end
  end.

(** The strings of a JSON value, for the memo check *)

(** [t] occurs in [u] as a substring. *)
Definition sub (t u : string) : Prop := exists a b, u = a ++ t ++ b.

(** [p] occurs in a string of [j]: a string value, or a key of an object,
    at any depth. *)
Inductive mentions (p : string) : json -> Prop :=
| mentions_str s : Py.contains p s = true -> mentions p (JStr s)
| mentions_arr l x : In x l -> mentions p x -> mentions p (JArr l)
| mentions_key kvs k v : In (k, v) kvs -> Py.contains p k = true -> mentions p (JObj kvs)
| mentions_val kvs k v : In (k, v) kvs -> mentions p v -> mentions p (JObj kvs).

(* ------------------------------------------------------------------ *)
(** * A scenario: the concrete scenarios of the spec's §8               *)
(* ------------------------------------------------------------------ *)

Module Scenario.

Definition d0 : data := {| users := ∅; wallet_map := ∅; seen_tx := [] |}.

Definition alice : sender := {| from_id := 42; from_username := Some "alice" |}.

(** a sender without a handle: keyed by the string of its id *)
Definition numeric : sender := {| from_id := 12345; from_username := None |}.

(** alice sends [/start WalletA] at time 5 *)
Definition d1 : data := (handle_message d0 alice "/start WalletA" 5).1.

(** a transfer of 0.15 SOL to the bot's wallet, paid by WalletA, with the memo *)
Definition detail_ok : json :=
  JObj [("nativeTransfers",
           JArr [JObj [("to", JStr WALLET); ("amount", JInt 150000000)]]);
        ("feePayer", JStr "WalletA");
        ("memo", JStr "SLC30")].

(** the same with only 0.10 SOL *)
Definition detail_low : json :=
  JObj [("nativeTransfers",
           JArr [JObj [("to", JStr WALLET); ("amount", JInt 100000000)]]);
        ("feePayer", JStr "WalletA");
        ("memo", JStr "SLC30")].

(** a transfer whose destination is a number *)
Definition detail_bad : json :=
  JObj [("nativeTransfers", JArr [JObj [("to", JInt 5)]])].

Definition tx1 : tx_summary := {| txHash := Some "sig1"; signature := None |}.

(** the payment is seen at time 100 *)
Definition run2 := @handle_new_payment py_num_ints d1 tx1 detail_ok 100 (Some "link").
Definition d2 : data := run2.1.1.

(** a store with a whitelisted and a plain member, both last paid at 0 *)
Definition rec0 : urec := {| join := Some 0%Z; last_paid := Some 0%Z; wallet := Some "W1"; user_id := Some 7%Z |}.
Definition d_old : data :=
  {| users := <["@Steez431" := rec0]> (<["@bob" := rec0]> ∅);
     wallet_map := <["W1" := "@bob"]> (<["W2" := "@Steez431"]> ∅);
     seen_tx := [] |}.

(** the numeric-id sender registers WalletC at time 5 *)
Definition d_num : data := (handle_message d0 numeric "/start WalletC" 5).1.

Definition rec_num : urec :=
  {| join := Some 5%Z; last_paid := None; wallet := Some "WalletC"; user_id := Some 12345%Z |}.

(** alice's record after her [/start WalletA] at time 5 *)
Definition rec_a : urec :=
  {| join := Some 5%Z; last_paid := None; wallet := Some "WalletA"; user_id := Some 42%Z |}.

Definition d_a : data :=
  {| users := <["@alice" := rec_a]> ∅; wallet_map := <["WalletA" := "@alice"]> ∅;
     seen_tx := [] |}.

(** a sweep whose clock reads 100 throughout, with every request going through *)
Definition clock100 : nat -> Z := fun _ => 100%Z.
Definition net_ok : nat -> bool * bool := fun _ => (true, true).

(** one Solscan poll returning the payment, then one returning it again *)
Definition batch1 : list (tx_summary * json * Z * option string) :=
  [(tx1, detail_ok, 100%Z, Some "link")].
Definition batch2 : list (tx_summary * json * Z * option string) :=
  [(tx1, detail_low, 300%Z, None)].

(** Telegram updates: a [/myjoin] from alice, and a message whose text is
    not a string *)
Definition upd_ok (id : Z) : tg_update :=
  {| update_id := id;
     update_message := Some {| msg_from := alice; msg_text := Some "/myjoin" |};
     update_edited := None |}.
Definition upd_bad (id : Z) : tg_update :=
  {| update_id := id;
     update_message := None;
     update_edited := Some {| msg_from := alice; msg_text := None |} |}.

(** the payment of [detail_ok] with no payer field at all *)
Definition kvs_nopayer : list (string * json) :=
  [("nativeTransfers", JArr [JObj [("to", JStr WALLET); ("amount", JInt 150000000)]]);
   ("memo", JStr "SLC30")].

(** the payment of [detail_ok], paid from WalletC *)
Definition detail_num : json :=
  JObj [("nativeTransfers",
           JArr [JObj [("to", JStr WALLET); ("amount", JInt 150000000)]]);
        ("feePayer", JStr "WalletC");
        ("memo", JStr "SLC30")].

(** a 0.10 SOL transfer listed twice *)
Definition items_half : list json :=
  [JObj [("to", JStr WALLET); ("amount", JInt 100000000)]].
Definition kvs_twice : list (string * json) :=
  [("nativeTransfers", JArr items_half); ("transfers", JArr items_half);
   ("memo", JStr "SLC30")].

End Scenario.

(* ================================================================== *)
(** * Properties                                                      *)

(* ------------------------------------------------------------------ *)
(** * Runs on small inputs                                             *)
(* ------------------------------------------------------------------ *)

Example py_split_start : Py.split (Py.strip "  /start  Wallet1 x ") = ["/start"; "Wallet1"; "x"].
Proof. reflexivity. Qed.

Example py_str_int : Py.str_int 1234509 = "1234509" /\ Py.str_int (-7) = "-7" /\ Py.str_int 0 = "0".
Proof. repeat split; reflexivity. Qed.

Example dumps_ex :
  dumps (JObj [("a", JArr [JInt 1; JStr ("x" ++ dq ++ "y")]); ("memo", JStr "SLC30")])
  = "{" ++ dq ++ "a" ++ dq ++ ": [1, " ++ dq ++ "x\" ++ dq ++ "y" ++ dq ++ "], "
    ++ dq ++ "memo" ++ dq ++ ": " ++ dq ++ "SLC30" ++ dq ++ "}".
Proof. reflexivity. Qed.

Module ScenarioRuns.
Import Scenario.

(** 1. [/start WalletA]: record with join set, last-paid unset; [/myjoin] says N/A *)
Example run_start :
  users d1 !! "@alice" = Some {| join := Some 5%Z; last_paid := None; wallet := Some "WalletA"; user_id := Some 42%Z |}
  /\ (handle_message d1 alice "/myjoin" 7).2 = [Send (ToId 42) (MsgStatus (Some 5%Z) None None)].
Proof. split; reflexivity. Qed.

(** 2. the payment grants: last_paid set, welcome and invite sent once *)
Example run_pay :
  users d2 !! "@alice" = Some {| join := Some 5%Z; last_paid := Some 100%Z; wallet := Some "WalletA"; user_id := Some 42%Z |}
  /\ run2.1.2 = [Send (ToId 42) MsgWelcome; Send (ToId 42) (MsgInvite "link"); Save; Save].
Proof. split; reflexivity. Qed.

(** 3. the same transaction again: nothing *)
Example run_again : @handle_new_payment py_num_ints d2 tx1 detail_ok 200 (Some "link") = (d2, [], mret tt).
Proof. reflexivity. Qed.

(** 4. and 6. 31 days later: bob is swept with his wallet entry, the whitelisted record stays *)
Example run_sweep :
  let d' := (daily_sweep d_old (fun _ => 31 * 86400 * 1000000)%Z (fun _ => (true, true))).1 in
  users d' !! "@bob" = None /\ wallet_map d' !! "W1" = None /\
  users d' !! "@Steez431" = Some rec0 /\ wallet_map d' !! "W2" = Some "@Steez431".
Proof. repeat split; vm_compute; reflexivity. Qed.

(** 5. 0.10 SOL: no grant, but marked seen *)
Example run_low :
  @handle_new_payment py_num_ints d1 tx1 detail_low 100 (Some "link")
  = ({| users := users d1; wallet_map := wallet_map d1; seen_tx := ["sig1"] |}, [Save], mret tt).
Proof. reflexivity. Qed.

End ScenarioRuns.


(* ================================================================== *)


Lemma existsb_eqb_false (s : string) (l : list string) :
  existsb (String.eqb s) l = false <-> ~ In s l.
Proof.
  split.
  - intros Hf Hin. assert (existsb (String.eqb s) l = true) as Ht.
    { apply existsb_exists. exists s. split; [done | apply String.eqb_refl]. }
    congruence.
  - intros Hn. destruct (existsb (String.eqb s) l) eqn:E; [| done].
    apply existsb_exists in E as (x & Hx & Heq). apply String.eqb_eq in Heq.
    subst. contradiction.
Qed.

Lemma existsb_eqb_true (s : string) (l : list string) :
  In s l -> existsb (String.eqb s) l = true.
Proof.
  intros Hin. apply existsb_exists. exists s. split; [done | apply String.eqb_refl].
Qed.

Lemma grant_access_to_frame d username w sig now inv :
  wallet_map (grant_access_to d username w sig now inv).1 = wallet_map d /\
  seen_tx (grant_access_to d username w sig now inv).1 = seen_tx d.
Proof. done. Qed.

Section PaymentProofs.

Context `{PyNum}.

(** The outcomes of the [try] block: it raises, changes nothing, or
    grants to the username a string payer is mapped to. *)
Lemma payment_body_cases d sig detail now inv :
  payment_body d sig detail now inv = Raise \/
  payment_body d sig detail now inv = Ok (d, []) \/
  exists s u, wallet_map d !! s = Some u /\
    payment_body d sig detail now inv = Ok (grant_access_to d u s sig now inv).
Proof.
  unfold payment_body.
  destruct (sum_lamports detail) as [l|]; cbn; [| by left].
  destruct (Z.leb MIN_LAMPORTS l && memo_found detail); cbn; [| by right; left].
  destruct (payer detail) as [sg|]; cbn; [| by left].
  destruct (truthy sg); [| by right; left].
  destruct sg as [| | | | s | |]; try (by right; left); try (by left).
  destruct (wallet_map d !! s) as [u|] eqn:Hu; [| by right; left].
  destruct (String.eqb u EmptyString); [by right; left |].
  right; right. by exists s, u.
Qed.

Lemma payment_body_seen d sig detail now inv d' evs :
  payment_body d sig detail now inv = Ok (d', evs) -> seen_tx d' = seen_tx d.
Proof.
  intros Hb. destruct (payment_body_cases d sig detail now inv) as [E | [E | (s & u & _ & E)]];
    rewrite E in Hb; inversion Hb; done.
Qed.

(** The identifier is in the store the call leaves, whatever happened after
    it was marked. *)
Lemma handle_new_payment_marks d tx sig detail now inv :
  tx_sig tx = Some sig ->
  In sig (seen_tx (handle_new_payment d tx detail now inv).1.1).
Proof.
  intros Hs. unfold handle_new_payment. rewrite Hs.
  destruct (existsb (String.eqb sig) (seen_tx d)) eqn:E.
  - cbn. apply existsb_exists in E as (x & Hx & Heq). apply String.eqb_eq in Heq. by subst.
  - destruct (payment_body _ sig detail now inv) as [[d2 evs]|] eqn:Hb; cbn.
    + apply payment_body_seen in Hb. rewrite Hb. cbn. apply in_or_app. right. by left.
    + apply in_or_app. right. by left.
Qed.

Lemma handle_new_payment_seen d tx sig detail now inv :
  tx_sig tx = Some sig -> In sig (seen_tx d) ->
  handle_new_payment d tx detail now inv = (d, [], mret tt).
Proof.
  intros Hs Hin. unfold handle_new_payment. rewrite Hs.
  by rewrite (existsb_eqb_true _ _ Hin).
Qed.

(** C1: a transaction whose identifier is already in [seen_tx] is a no-op:
    the store (records, wallet map, seen list) is returned unchanged and no
    effect at all is performed, in particular no welcome message. *)
Theorem handle_new_payment_seen_noop d tx sig detail now inv :
  tx_sig tx = Some sig -> In sig (seen_tx d) ->
  handle_new_payment d tx detail now inv = (d, [], mret tt).
Proof. apply handle_new_payment_seen. Qed.

(** C4: on a transaction not yet seen, the identifier is appended to
    [seen_tx] before the amount, memo and grant steps run: when one of
    them raises, the store left behind is the input with the identifier
    appended (and saved); in every case the identifier is in the resulting
    store and processing the same transaction again, with whatever detail
    the explorer returns then, is a no-op. *)
Theorem handle_new_payment_mark_first d tx sig detail now inv :
  tx_sig tx = Some sig -> ~ In sig (seen_tx d) ->
  let '(d1, evs, res) := handle_new_payment d tx detail now inv in
  (res = Raise ->
     d1 = {| users := users d; wallet_map := wallet_map d;
             seen_tx := (seen_tx d ++ [sig])%list |} /\ evs = [Save]) /\
  In sig (seen_tx d1) /\
  (forall detail' now' inv',
     handle_new_payment d1 tx detail' now' inv' = (d1, [], mret tt)).
Proof.
  intros Hs Hn.
  pose proof (handle_new_payment_marks d tx sig detail now inv Hs) as Hm.
  destruct (handle_new_payment d tx detail now inv) as [[d1 evs] res] eqn:E.
  cbn in Hm. split; [| split; [done |]].
  - intros ->. unfold handle_new_payment in E. rewrite Hs in E.
    apply existsb_eqb_false in Hn. rewrite Hn in E.
    destruct (payment_body _ sig detail now inv) as [[d2 evs2]|]; inversion E; done.
  - intros detail' now' inv'. by apply (handle_new_payment_seen d1 tx sig).
Qed.

End PaymentProofs.

Section GrantCondition.

Context `{PyNum}.


Lemma payment_body_spec d sig detail now inv :
  (forall w u, wallet_map d !! w = Some u -> w <> EmptyString /\ u <> EmptyString) ->
  (qualifies (wallet_map d) detail /\
     exists p u, wallet_map d !! p = Some u /\
       payment_body d sig detail now inv = Ok (grant_access_to d u p sig now inv)) \/
  (~ qualifies (wallet_map d) detail /\
     (payment_body d sig detail now inv = Raise \/
      payment_body d sig detail now inv = Ok (d, []))).
Proof.
  intros Hwf. unfold payment_body.
  destruct (sum_lamports detail) as [l|] eqn:Esum; cbn;
    [| right; split; [intros (l & p & u & Hs & _); congruence | by left]].
  destruct (Z.leb MIN_LAMPORTS l && memo_found detail) eqn:Eq; cbn;
    [| right; split; [| by right];
       intros (l' & p & u & Hs & Hle & Hm & _); rewrite Esum in Hs; inversion Hs; subst;
       apply andb_false_iff in Eq as [Eq | Eq]; [apply Z.leb_gt in Eq; lia | congruence]].
  apply andb_true_iff in Eq as [Hle Hm]. apply Z.leb_le in Hle.
  destruct (payer detail) as [sg|] eqn:Ep; cbn;
    [| right; split; [intros (l' & p & u & _ & _ & _ & Hp & _); congruence | by left]].
  destruct (truthy sg) eqn:Et.
  2:{ right. split; [| by right]. intros (l' & p & u & _ & _ & _ & Hp & Hw).
      rewrite Ep in Hp. inversion Hp; subst. cbn in Et.
      apply negb_false_iff, String.eqb_eq in Et. subst. by apply Hwf in Hw as [? _]. }
  destruct sg as [| | | | s | |];
    try (right; split;
         [intros (l' & p & u & _ & _ & _ & Hp & _); rewrite Ep in Hp; discriminate
         | first [by left | by right]]).
  destruct (wallet_map d !! s) as [u|] eqn:Ew.
  - left. assert (u <> EmptyString) as Hu by (apply (Hwf s u Ew)).
    destruct (String.eqb u EmptyString) eqn:Eu; [apply String.eqb_eq in Eu; done |].
    split; [by exists l, s, u | by exists s, u].
  - right. split; [| by right]. intros (l' & p & u & _ & _ & _ & Hp & Hw).
    rewrite Ep in Hp. inversion Hp; subst. congruence.
Qed.

(** C3: on a transaction not yet seen (and a store whose wallet map the
    code built), a grant is issued exactly when the summed amount reaches
    [MIN_LAMPORTS], the memo marker occurs in [json.dumps(detail)] and the
    fee-payer (or first signer) is a key of the wallet map; when no grant is
    issued, in particular when the payer is not in the wallet map, the only
    change to the store is the identifier appended to [seen_tx]. *)
Theorem handle_new_payment_grant_iff d tx sig detail now inv :
  tx_sig tx = Some sig -> ~ In sig (seen_tx d) ->
  (forall w u, wallet_map d !! w = Some u -> w <> EmptyString /\ u <> EmptyString) ->
  let '(d', evs, _) := handle_new_payment d tx detail now inv in
  (welcome_sent evs <-> qualifies (wallet_map d) detail) /\
  (~ qualifies (wallet_map d) detail ->
     users d' = users d /\ wallet_map d' = wallet_map d /\
     seen_tx d' = (seen_tx d ++ [sig])%list).
Proof.
  intros Hs Hn Hwf. unfold handle_new_payment. rewrite Hs.
  apply existsb_eqb_false in Hn. rewrite Hn.
  set (d1 := {| users := users d; wallet_map := wallet_map d;
                seen_tx := (seen_tx d ++ [sig])%list |}).
  destruct (payment_body_spec d1 sig detail now inv Hwf)
    as [[Hq (p & u & Hw & ->)] | [Hq [-> | ->]]]; cbn.
  - split; [| done]. split; [intros _; exact Hq |].
    intros _. eexists. left. reflexivity.
  - split; [| done]. split; [intros (t & Ht); destruct Ht as [Ht | []]; discriminate | done].
  - split; [| done]. split; [intros (t & Ht); destruct Ht as [Ht | []]; discriminate | done].
Qed.

End GrantCondition.

(** ** The join timestamp *)

(** Inserting at a key a record whose join is [setdefault_join] of the
    record found there keeps every join that is set. *)
Lemma insert_keeps_join (m : gmap string urec) (k x : string) (u' : urec) (now j : Z) :
  m !! k ≫= join = Some j ->
  join u' = setdefault_join (default empty_rec (m !! x)) now ->
  (<[x := u']> m !! k) ≫= join = Some j.
Proof.
  intros Hk Hj. rewrite lookup_insert. case_decide as Heq; [subst x |]; cbn.
  - rewrite Hj. destruct (m !! k) as [r|]; cbn in *; [| discriminate].
    unfold setdefault_join. by rewrite Hk.
  - exact Hk.
Qed.

Lemma grant_keeps_join d username w sig now inv k j :
  users d !! k ≫= join = Some j ->
  users (grant_access_to d username w sig now inv).1 !! k ≫= join = Some j.
Proof. intros Hk. by apply insert_keeps_join with (now := now). Qed.

Lemma handle_message_keeps_join d frm text now k j :
  users d !! k ≫= join = Some j ->
  users (handle_message d frm text now).1 !! k ≫= join = Some j.
Proof.
  intros Hk. unfold handle_message.
  destruct (Py.startswith _ "/start").
  - destruct (Py.split _) as [| ? [| ? ?]]; cbn; by apply insert_keeps_join with (now := now).
  - repeat case_match; done.
Qed.

Lemma handle_new_payment_keeps_join `{PyNum} d tx detail now inv k j :
  users d !! k ≫= join = Some j ->
  users (handle_new_payment d tx detail now inv).1.1 !! k ≫= join = Some j.
Proof.
  intros Hk. unfold handle_new_payment.
  destruct (tx_sig tx) as [sig|]; [| done].
  destruct (existsb _ _); [done |].
  match goal with |- context [payment_body ?d1 sig detail now inv] =>
    destruct (payment_body_cases d1 sig detail now inv) as [E | [E | (s & u & _ & E)]];
    rewrite E; [done | done |] end.
  pose proof (grant_keeps_join
    {| users := users d; wallet_map := wallet_map d; seen_tx := (seen_tx d ++ [sig])%list |}
    u s sig now inv k j Hk) as Hg.
  destruct (grant_access_to _ u s sig now inv) as [d2 e2]. exact Hg.
Qed.

(** C5: once a record's [join] is set, no later [/start] (with or without a
    wallet argument), no grant and no payment changes it; each writes
    [join] only when the key is absent. *)
Theorem join_never_changes `{PyNum} d k j :
  users d !! k ≫= join = Some j ->
  (forall frm text now, users (handle_message d frm text now).1 !! k ≫= join = Some j) /\
  (forall username w sig now inv,
     users (grant_access_to d username w sig now inv).1 !! k ≫= join = Some j) /\
  (forall tx detail now inv,
     users (handle_new_payment d tx detail now inv).1.1 !! k ≫= join = Some j).
Proof.
  intros Hk. split; [| split]; intros.
  - by apply handle_message_keeps_join.
  - by apply grant_keeps_join.
  - by apply handle_new_payment_keeps_join.
Qed.

(** ** Registration and status query *)

(** C9: a [/start] with a wallet argument from an already-registered
    username maps the new wallet to the username, makes it the record's
    linked wallet and keeps the join timestamp; every other wallet-map
    entry, in particular the one of the previously linked wallet, is left
    as it was. *)
Theorem start_remap_wallet d frm text now p0 p1 rest r j :
  Py.startswith (Py.lower (Py.strip text)) "/start" = true ->
  Py.split (Py.strip text) = p0 :: p1 :: rest ->
  users d !! sender_uname frm = Some r -> join r = Some j ->
  let d' := (handle_message d frm text now).1 in
  wallet_map d' !! Py.strip p1 = Some (sender_uname frm) /\
  (exists r', users d' !! sender_uname frm = Some r' /\
              wallet r' = Some (Py.strip p1) /\ join r' = Some j) /\
  (forall w, w <> Py.strip p1 -> wallet_map d' !! w = wallet_map d !! w).
Proof.
  intros Hst Hsp Hr Hj. unfold handle_message. rewrite Hst, Hsp, Hr. cbn.
  split; [| split].
  - apply lookup_insert_eq.
  - eexists. split; [apply lookup_insert_eq |]. cbn. unfold setdefault_join. by rewrite Hj.
  - intros w Hw. by apply lookup_insert_ne.
Qed.

Lemma startswith_myjoin_not_start (s : string) :
  Py.startswith s "/myjoin" = true -> Py.startswith s "/start" = false.
Proof.
  unfold Py.startswith. intros Hp.
  destruct s as [|a s]; [discriminate |].
  change ((if ascii_dec "/"%char a then String.prefix "myjoin" s else false) = true) in Hp.
  destruct (ascii_dec "/"%char a) as [<- |]; [| discriminate].
  destruct s as [|b s]; [discriminate |].
  change ((if ascii_dec "m"%char b then String.prefix "yjoin" s else false) = true) in Hp.
  destruct (ascii_dec "m"%char b) as [<- |]; [reflexivity | discriminate].
Qed.

(** C7: [/myjoin] answers the sender only: without a record it asks them
    to register first; with one it reports the join time, the last-paid
    time and the expiry [last_paid + 30 days], the expiry being "N/A"
    ([None]) when [last_paid] was never set.  The store is unchanged. *)
Theorem myjoin_reply d frm text now :
  Py.startswith (Py.lower (Py.strip text)) "/myjoin" = true -> data_wf d ->
  handle_message d frm text now =
    (d, [Send (ToId (from_id frm))
           (match users d !! sender_uname frm with
            | None => MsgNoRecord
            | Some r =>
                MsgStatus (join r) (last_paid r)
                  (match last_paid r with Some l => Some (l + TTL)%Z | None => None end)
            end)]).
Proof.
  intros Hm [Hj _]. unfold handle_message.
  rewrite (startswith_myjoin_not_start _ Hm), Hm.
  destruct (users d !! sender_uname frm) as [r|] eqn:Er; [| done].
  destruct (Hj _ _ Er) as [jv Hjv].
  unfold rec_truthy. rewrite Hjv. done.
Qed.

(** ** The record key of a grant *)

Lemma at_prefix_ne (u : string) : "@" ++ u <> u.
Proof.
  intros Heq. change ("@" ++ u) with (String "@"%char u) in Heq.
  apply (f_equal String.length) in Heq. cbn in Heq. lia.
Qed.

(** C10: [grant_access_to] keys the grant by ["@" + username] when the
    username has no leading ["@"] and is alphanumeric (as the numeric id
    stored for a sender without a handle is): the registration record under
    the bare key is left as it was (so its [last_paid] stays unset), and
    the grant lands in a second record with [last_paid] set and no
    [user_id]. *)
Theorem grant_key_at_prefix d username w sig now inv r :
  Py.startswith username "@" = false -> Py.isalnum username = true ->
  users d !! username = Some r -> users d !! ("@" ++ username) = None ->
  grant_key username = "@" ++ username /\
  (let d' := (grant_access_to d username w sig now inv).1 in
   users d' !! username = Some r /\
   exists r', users d' !! ("@" ++ username) = Some r' /\
              user_id r' = None /\ last_paid r' = Some now).
Proof.
  intros Hat Hal Hr Hn.
  assert (Hk : grant_key username = "@" ++ username)
    by (unfold grant_key; by rewrite Hat, Hal).
  split; [exact Hk |]. cbn. rewrite Hk, Hn. split.
  - rewrite lookup_insert_ne; [exact Hr | apply at_prefix_ne].
  - eexists. split; [apply lookup_insert_eq | done].
Qed.

(** ** The daily sweep *)

Lemma sweep_one_state t net uname info d :
  (sweep_one t net uname info d).1.1 = if expired t uname info then revoke uname d else d.
Proof.
  unfold sweep_one, expired.
  destruct (is_whitelisted uname); [done |]. cbn.
  destruct (last_active info) as [last|]; [| done].
  by destruct (Z.ltb TTL (t - last)).
Qed.

Lemma sweep_loop_state clock net i l d c :
  (sweep_loop clock net i l d c).1.1 = sweep_spec clock i l d.
Proof.
  revert i d c. induction l as [| [k info] l IH]; intros i d c; [done |]. cbn.
  pose proof (sweep_one_state (clock i) (net i) k info d) as Hs.
  destruct (sweep_one (clock i) (net i) k info d) as [[d1 e1] c1]. cbn in Hs.
  specialize (IH (S i) d1 (c || c1)).
  destruct (sweep_loop clock net (S i) l d1 (c || c1)) as [[d2 e2] c2]. cbn in *.
  by rewrite IH, Hs.
Qed.

Lemma daily_sweep_state d clock net :
  (daily_sweep d clock net).1 = sweep_spec clock 0 (map_to_list (users d)) d.
Proof.
  unfold daily_sweep. pose proof (sweep_loop_state clock net 0 (map_to_list (users d)) d false) as Hs.
  destruct (sweep_loop _ _ _ _ _ _) as [[d' evs] c]. exact Hs.
Qed.


Lemma revoke_gone k d : gone k (revoke k d).
Proof.
  split; cbn; [apply lookup_delete_eq |].
  intros w Hw. apply map_lookup_filter_Some in Hw as [_ Hne]. by apply Hne.
Qed.

Lemma revoke_keeps_gone k k' d : gone k d -> gone k (revoke k' d).
Proof.
  intros [Hu Hw]. split; cbn.
  - rewrite lookup_delete. case_decide; [done | exact Hu].
  - intros w Hf. apply map_lookup_filter_Some in Hf as [Hf _]. by apply (Hw w).
Qed.

Lemma sweep_spec_keeps_gone clock i l d k :
  gone k d -> gone k (sweep_spec clock i l d).
Proof.
  revert i d. induction l as [| [k' info] l IH]; intros i d Hg; [done |]. cbn.
  apply IH. destruct (expired (clock i) k' info); [by apply revoke_keeps_gone | done].
Qed.

Lemma sweep_spec_removes clock i l d k info :
  In (k, info) l -> (forall n, expired (clock n) k info = true) ->
  gone k (sweep_spec clock i l d).
Proof.
  revert i d. induction l as [| [k' info'] l IH]; intros i d Hin Hexp; [done |]. cbn.
  destruct Hin as [Heq | Hin].
  - inversion Heq; subst. rewrite Hexp. apply sweep_spec_keeps_gone, revoke_gone.
  - by apply IH.
Qed.

Lemma sweep_spec_keeps_whitelisted clock i l d k r :
  is_whitelisted k = true -> users d !! k = Some r ->
  users (sweep_spec clock i l d) !! k = Some r.
Proof.
  intros Hwl. revert i d. induction l as [| [k' info] l IH]; intros i d Hr; [done |]. cbn.
  apply IH. destruct (expired (clock i) k' info) eqn:He; [| done].
  cbn. rewrite lookup_delete_ne; [done |].
  intros ->. unfold expired in He. by rewrite Hwl in He.
Qed.

(** C2: at a sweep all of whose clock readings are at least [now], every
    record whose username is not whitelisted and whose [last_active]
    (last_paid, or join if never paid) is more than [TTL] before [now] is
    removed, and so is every wallet-map entry whose value is that username;
    every whitelisted record is kept as it is, whatever its age. *)
Theorem daily_sweep_ttl d clock net :
  (forall k r t now,
     users d !! k = Some r -> is_whitelisted k = false -> last_active r = Some t ->
     (forall n, (now <= clock n)%Z) -> (TTL < now - t)%Z ->
     users (daily_sweep d clock net).1 !! k = None /\
     forall w, wallet_map (daily_sweep d clock net).1 !! w <> Some k) /\
  (forall k r, is_whitelisted k = true -> users d !! k = Some r ->
     users (daily_sweep d clock net).1 !! k = Some r).
Proof.
  rewrite daily_sweep_state. split.
  - intros k r t now Hr Hwl Hl Hclock Httl.
    apply (sweep_spec_removes clock 0 (map_to_list (users d)) d k r).
    + apply list_elem_of_In. by apply elem_of_map_to_list.
    + intros n. unfold expired. rewrite Hwl, Hl. cbn.
      apply Z.ltb_lt. specialize (Hclock n). lia.
  - intros k r Hwl Hr. by apply sweep_spec_keeps_whitelisted.
Qed.

(** C6: the store left by a sweep is [sweep_spec]: the deletions depend
    only on the whitelist and the timestamps, not on the user id of a
    record nor on whether the removal and notification requests went
    through; two sweeps whose requests fare differently leave the same
    store. *)
Theorem daily_sweep_deletes_unconditionally d clock net net' :
  (daily_sweep d clock net).1 = sweep_spec clock 0 (map_to_list (users d)) d /\
  (daily_sweep d clock net).1 = (daily_sweep d clock net').1.
Proof. rewrite !daily_sweep_state. done. Qed.

(** ** Tolerance of the amount loop *)

Lemma iter_items_arr items : iter_items (JArr items) = Ok items.
Proof. unfold iter_items. cbn. by destruct items. Qed.

Section AmountProofs.

Context `{PyNum}.

Lemma sum_items_skip_zero it l1 l2 acc :
  item_lamports it = Ok 0%Z ->
  sum_items (l1 ++ it :: l2) acc = sum_items (l1 ++ l2) acc.
Proof.
  intros Hit. revert acc. induction l1 as [| x l1 IH]; intros acc; cbn [app sum_items].
  - rewrite Hit. cbn. by rewrite Z.add_0_r.
  - destruct (item_lamports x); cbn; [apply IH | done].
Qed.

Lemma get_or_obj kvs ks : exists v, get_or (JObj kvs) ks = Ok v.
Proof.
  induction ks as [| k ks IH]; [by eexists |].
  destruct ks as [| k' ks]; [by eexists |].
  change (exists v, (get (JObj kvs) k ≫= fun v => if truthy v then mret v
                                                else get_or (JObj kvs) (k' :: ks)) = Ok v).
  cbn. destruct (truthy _); [by eexists | exact IH].
Qed.

Lemma sum_items_raise_at it l1 l2 acc :
  item_lamports it = Raise -> sum_items (l1 ++ it :: l2) acc = Raise.
Proof.
  intros Hit. revert acc. induction l1 as [| x l1 IH]; intros acc; cbn [app sum_items].
  - by rewrite Hit.
  - destruct (item_lamports x); cbn; [apply IH | done].
Qed.

Lemma sum_keys_raise kvs ks k l acc :
  In k ks -> assoc k kvs = Some (JArr l) -> (forall acc', sum_items l acc' = Raise) ->
  sum_keys (JObj kvs) ks acc = Raise.
Proof.
  intros Hk Hl Hr. revert acc. induction ks as [| k' ks IH]; intros acc; [done |].
  cbn [sum_keys]. destruct Hk as [<- | Hk].
  - unfold get, get_default. rewrite Hl. cbn. rewrite iter_items_arr. cbn. by rewrite Hr.
  - destruct (get (JObj kvs) k' ≫= iter_items) eqn:E;
      [| unfold get, get_default in *; cbn in *; by rewrite E].
    unfold get, get_default in *. cbn in *.
    destruct (iter_items _) as [items|]; cbn in *; [| discriminate].
    destruct (sum_items items acc); cbn; [apply IH, Hk | done].
Qed.

(** C8 (as corrected): for a transfer item that is a dict whose
    destination, when set, is a string, a missing destination, a missing
    amount, or an amount that neither [int()] nor [float()] converts makes
    the item contribute 0: the loop runs on and sums exactly what it sums
    without the item. An item that is not a dict, or a dict whose
    destination is truthy but not a string, raises: the amount loop
    raises wherever the item sits, and a new transaction listing it under
    one of the transfer keys fails, marked seen and saved. *)
Theorem item_malformed_contributes_zero :
  (forall kvs to amt,
     get_or (JObj kvs) dest_keys = Ok to -> get_or (JObj kvs) amount_keys = Ok amt ->
     (truthy to = false \/ exists s, to = JStr s) ->
     (truthy to = false \/ truthy amt = false \/
      (py_int amt = None /\ py_float_lamports amt = None)) ->
     item_lamports (JObj kvs) = Ok 0%Z /\
     forall l1 l2 acc, sum_items (l1 ++ JObj kvs :: l2) acc = sum_items (l1 ++ l2) acc) /\
  (forall it,
     (forall kvs, it <> JObj kvs) \/
     (exists kvs to, it = JObj kvs /\ get_or (JObj kvs) dest_keys = Ok to /\
                     truthy to = true /\ forall s, to <> JStr s) ->
     item_lamports it = Raise /\
     (forall l1 l2 acc, sum_items (l1 ++ it :: l2) acc = Raise) /\
     (forall kvs k l d tx sig now inv,
        In k transfer_keys -> assoc k kvs = Some (JArr l) -> In it l ->
        tx_sig tx = Some sig -> ~ In sig (seen_tx d) ->
        handle_new_payment d tx (JObj kvs) now inv =
        ({| users := users d; wallet_map := wallet_map d;
            seen_tx := (seen_tx d ++ [sig])%list |}, [Save], Raise))).
Proof.
  split.
  - intros kvs to amt Hto Hamt Hstr Hbad.
    assert (Hz : item_lamports (JObj kvs) = Ok 0%Z).
    { unfold item_lamports. rewrite Hto, Hamt. cbn.
      destruct (truthy to) eqn:Et; [| done].
      destruct Hstr as [Hf | [s ->]]; [congruence |]. cbn.
      destruct Hbad as [Hf | [Hf | [Hi Hfl]]]; [congruence | |].
      - rewrite Hf, andb_false_r. done.
      - unfold amount_of. rewrite Hi, Hfl.
        by destruct (String.eqb _ _ && truthy amt). }
    split; [exact Hz |]. intros l1 l2 acc. by apply sum_items_skip_zero.
  - intros it Hit.
    assert (Hr : item_lamports it = Raise).
    { destruct Hit as [Hno | (kvs & to & -> & Hto & Ht & Hns)].
      - destruct it as [| | | | | | kvs]; try reflexivity. by destruct (Hno kvs).
      - unfold item_lamports. destruct (get_or_obj kvs amount_keys) as [amt Ha].
        rewrite Hto, Ha. cbn. rewrite Ht.
        destruct to as [| | | | s | |]; try reflexivity. by destruct (Hns s). }
    split; [exact Hr |]. split.
    + intros l1 l2 acc. by apply sum_items_raise_at.
    + intros kvs k l d tx sig now inv Hk Hl Hin Hs Hn.
      unfold handle_new_payment. rewrite Hs, (proj2 (existsb_eqb_false _ _) Hn).
      unfold payment_body.
      assert (Hsum : sum_lamports (JObj kvs) = Raise).
      { apply (sum_keys_raise kvs transfer_keys k l 0%Z Hk Hl).
        intros acc'. apply in_split in Hin as (l1 & l2 & ->). by apply sum_items_raise_at. }
      rewrite Hsum. reflexivity.
Qed.

End AmountProofs.

(** C8, counterexample: a transfer dict without an amount whose
    destination is a number makes [to.lower()] raise, and with it the
    whole amount loop and the transaction (which stays marked seen). *)
Lemma item_nonstring_dest_raises :
  @item_lamports py_num_ints (JObj [("to", JInt 5)]) = Raise /\
  @sum_lamports py_num_ints (JObj [("nativeTransfers", JArr [JObj [("to", JInt 5)]])]) = Raise /\
  (@handle_new_payment py_num_ints
     {| users := ∅; wallet_map := ∅; seen_tx := [] |}
     {| txHash := Some "sig1"; signature := None |}
     (JObj [("nativeTransfers", JArr [JObj [("to", JInt 5)]])]) 0 None).2 = Raise.
Proof. repeat split; vm_compute; reflexivity. Qed.

(** ** Every store the code builds is well formed *)

Module PyFacts.

Lemma rev_str_has_nonspace s acc :
  Py.has_nonspace (Py.rev_str s acc) = Py.has_nonspace s || Py.has_nonspace acc.
Proof.
  revert acc. induction s as [| c s IH]; intros acc; [done |]. cbn.
  rewrite IH. cbn. by destruct (Py.is_space c), (Py.has_nonspace s), (Py.has_nonspace acc).
Qed.

Lemma lstrip_has_nonspace s : Py.has_nonspace (Py.lstrip_ws s) = Py.has_nonspace s.
Proof.
  induction s as [| c s IH]; [done |]. cbn.
  destruct (Py.is_space c) eqn:E; [exact IH | cbn; by rewrite E].
Qed.

Lemma strip_has_nonspace s : Py.has_nonspace (Py.strip s) = Py.has_nonspace s.
Proof.
  unfold Py.strip. rewrite rev_str_has_nonspace, lstrip_has_nonspace,
    rev_str_has_nonspace, lstrip_has_nonspace. cbn. by rewrite !orb_false_r.
Qed.

Lemma has_nonspace_nonempty s : Py.has_nonspace s = true -> s <> EmptyString.
Proof. by intros Hs ->. Qed.

Lemma split_aux_tokens s cur :
  (cur = EmptyString \/ Py.has_nonspace cur = true) ->
  Forall (fun t => Py.has_nonspace t = true) (Py.split_aux s cur).
Proof.
  revert cur. induction s as [| c s IH]; intros cur Hcur; cbn.
  - destruct cur as [| a cur]; [constructor |].
    destruct Hcur as [Hc | Hc]; [discriminate |].
    repeat constructor. by rewrite rev_str_has_nonspace, Hc.
  - destruct (Py.is_space c) eqn:E.
    + destruct cur as [| a cur]; [by apply IH; left |].
      destruct Hcur as [Hc | Hc]; [discriminate |].
      constructor; [by rewrite rev_str_has_nonspace, Hc | by apply IH; left].
    + apply IH. right. cbn. by rewrite E.
Qed.

Lemma split_token_strip_nonempty s p0 p1 rest :
  Py.split s = p0 :: p1 :: rest -> Py.strip p1 <> EmptyString.
Proof.
  intros Hs. pose proof (split_aux_tokens s EmptyString (or_introl eq_refl)) as Hf.
  unfold Py.split in Hs. rewrite Hs in Hf.
  apply Forall_cons in Hf as [_ Hf]. apply Forall_cons in Hf as [Hp1 _].
  apply has_nonspace_nonempty. by rewrite strip_has_nonspace.
Qed.

Lemma digits_pos_nonempty f n d acc : Py.digits_pos f n (String d acc) <> EmptyString.
Proof.
  revert n d acc. induction f as [| f IH]; intros n d acc; cbn; [done |].
  destruct (n <? 10)%Z; [done | apply IH].
Qed.

Lemma str_int_nonempty z : Py.str_int z <> EmptyString.
Proof.
  unfold Py.str_int. destruct (z <? 0)%Z; [done |]. cbn.
  destruct (z <? 10)%Z; [done | apply digits_pos_nonempty].
Qed.

End PyFacts.

Lemma sender_uname_nonempty frm : sender_uname frm <> EmptyString.
Proof.
  unfold sender_uname. destruct (from_username frm) as [h|]; [| apply PyFacts.str_int_nonempty].
  destruct (String.eqb h EmptyString); [apply PyFacts.str_int_nonempty | done].
Qed.

Lemma data_wf_init : data_wf {| users := ∅; wallet_map := ∅; seen_tx := [] |}.
Proof. split; cbn; intros ? ?; rewrite lookup_empty; discriminate. Qed.

Lemma data_wf_grant d username w sig now inv :
  data_wf d -> data_wf (grant_access_to d username w sig now inv).1.
Proof.
  intros [Hj Hw]. split; [| exact Hw]. cbn. intros k r.
  rewrite lookup_insert. case_decide; [intros [= <-]; cbn | apply Hj].
  by destruct (join _).
Qed.

Lemma data_wf_handle_new_payment `{PyNum} d tx detail now inv :
  data_wf d -> data_wf (handle_new_payment d tx detail now inv).1.1.
Proof.
  intros Hwf. unfold handle_new_payment.
  destruct (tx_sig tx) as [sig|]; [| done].
  destruct (existsb _ _); [done |].
  set (d1 := {| users := users d; wallet_map := wallet_map d;
                seen_tx := (seen_tx d ++ [sig])%list |}).
  assert (Hwf1 : data_wf d1) by exact Hwf.
  destruct (payment_body_cases d1 sig detail now inv) as [E | [E | (s & u & _ & E)]];
    rewrite E; [done | done |].
  pose proof (data_wf_grant d1 u s sig now inv Hwf1) as Hg.
  destruct (grant_access_to d1 u s sig now inv). exact Hg.
Qed.

Lemma data_wf_handle_message d frm text now :
  data_wf d -> data_wf (handle_message d frm text now).1.
Proof.
  intros [Hj Hw]. unfold handle_message.
  destruct (Py.startswith _ "/start").
  - destruct (Py.split (Py.strip text)) as [| p0 [| p1 rest]] eqn:Hs; cbn;
      (split; cbn; [intros k r; rewrite lookup_insert; case_decide;
                    [intros [= <-]; cbn; unfold setdefault_join; by destruct (join _) | apply Hj] |]);
      try exact Hw.
    intros w' u. rewrite lookup_insert. case_decide as Heq; [intros [= <-]; subst w' | apply Hw].
    split; [apply (PyFacts.split_token_strip_nonempty _ _ _ _ Hs) | apply sender_uname_nonempty].
  - repeat case_match; by split.
Qed.

Lemma data_wf_daily_sweep d clock net :
  data_wf d -> data_wf (daily_sweep d clock net).1.
Proof.
  rewrite daily_sweep_state. generalize 0 as i.
  generalize (map_to_list (users d)) as l. intros l. revert d.
  induction l as [| [k info] l IH]; intros d i Hwf; [done |]. cbn. apply IH.
  destruct (expired (clock i) k info); [| done].
  destruct Hwf as [Hj Hw]. split; cbn.
  - intros k' r. rewrite lookup_delete. case_decide; [discriminate | apply Hj].
  - intros w u Hf. apply map_lookup_filter_Some in Hf as [Hf _]. by apply Hw in Hf.
Qed.

(* ================================================================== *)
(** * Further properties of the code                                  *)
(* ================================================================== *)

(** ** Whitelist normalization ([norm_username], [is_whitelisted]) *)

Lemma lower_char_idem c : Py.lower_char (Py.lower_char c) = Py.lower_char c.
Proof.
  destruct (Nat.leb 65 (nat_of_ascii c) && Nat.leb (nat_of_ascii c) 90) eqn:E.
  - assert (Py.lower_char c = ascii_of_nat (nat_of_ascii c + 32)) as ->.
    { unfold Py.lower_char. cbv zeta. by rewrite E. }
    apply andb_true_iff in E as [E1 E2]. apply Nat.leb_le in E1, E2.
    unfold Py.lower_char. cbv zeta. rewrite nat_ascii_embedding by lia.
    rewrite (proj2 (Nat.leb_gt (nat_of_ascii c + 32) 90)) by lia.
    by rewrite andb_false_r.
  - assert (Py.lower_char c = c) as ->.
    { unfold Py.lower_char. cbv zeta. by rewrite E. }
    unfold Py.lower_char. cbv zeta. by rewrite E.
Qed.

Lemma lower_idem s : Py.lower (Py.lower s) = Py.lower s.
Proof. induction s as [| c s IH]; [done |]. cbn. by rewrite lower_char_idem, IH. Qed.

Lemma norm_username_eq u : norm_username u = Py.lstrip_at (Py.lower u).
Proof. by destruct u. Qed.

(** X1: whether a username is whitelisted does not depend on a leading
    ["@"] nor on ASCII case. *)
Theorem is_whitelisted_normalized (u : string) :
  is_whitelisted ("@" ++ u) = is_whitelisted u /\
  is_whitelisted (Py.lower u) = is_whitelisted u.
Proof.
  unfold is_whitelisted. rewrite !norm_username_eq. split.
  - change ("@" ++ u) with (String "@"%char u). reflexivity.
  - by rewrite lower_idem.
Qed.

(** ** The key of a sender without a handle *)

Lemma digit_alnum (k : nat) : k < 10 -> Py.is_alnum_char (ascii_of_nat (48 + k)) = true.
Proof.
  intros Hk. unfold Py.is_alnum_char. rewrite nat_ascii_embedding by lia.
  rewrite (proj2 (Nat.leb_le 48 (48 + k))) by lia.
  rewrite (proj2 (Nat.leb_le (48 + k) 57)) by lia. reflexivity.
Qed.

Lemma digits_pos_alnum f n acc :
  Py.all_alnum acc = true -> Py.all_alnum (Py.digits_pos f n acc) = true.
Proof.
  revert n acc. induction f as [| f IH]; intros n acc Hacc; [done |].
  set (d := ascii_of_nat (48 + Z.to_nat (n mod 10)%Z)).
  assert (Hd : Py.all_alnum (String d acc) = true).
  { change (Py.is_alnum_char d && Py.all_alnum acc = true). rewrite Hacc, andb_true_r.
    apply digit_alnum. pose proof (Z.mod_pos_bound n 10 ltac:(lia)). lia. }
  change (Py.all_alnum (if (n <? 10)%Z then String d acc
                        else Py.digits_pos f (n / 10)%Z (String d acc)) = true).
  destruct (n <? 10)%Z; [done | by apply IH].
Qed.

Lemma str_int_isalnum z : (0 <= z)%Z -> Py.isalnum (Py.str_int z) = true.
Proof.
  intros Hz. pose proof (PyFacts.str_int_nonempty z) as Hne.
  unfold Py.str_int in *. rewrite (proj2 (Z.ltb_ge z 0) Hz) in *.
  destruct (Py.digits_pos _ z EmptyString) eqn:E; [done |].
  unfold Py.isalnum. rewrite <- E. by apply digits_pos_alnum.
Qed.

Lemma isalnum_no_at s : Py.isalnum s = true -> Py.startswith s "@" = false.
Proof.
  destruct s as [| c s]; [discriminate |]. unfold Py.isalnum. cbn.
  intros Hal. unfold Py.startswith.
  change ((if ascii_dec "@"%char c then String.prefix EmptyString s else false) = false).
  destruct (ascii_dec "@"%char c) as [<- |]; [discriminate | done].
Qed.

(** ** What the operations touch *)

Lemma sweep_spec_seen clock i l d : seen_tx (sweep_spec clock i l d) = seen_tx d.
Proof.
  revert i d. induction l as [| [k info] l IH]; intros i d; [done |]. cbn.
  rewrite IH. by destruct (expired (clock i) k info).
Qed.

(** X2: payment processing never changes the wallet map and extends
    [seen_tx] by at most the transaction's identifier, when it was not
    there yet; messages and sweeps never change [seen_tx]. *)
Theorem seen_tx_append_only `{PyNum} :
  (forall d tx detail now inv,
     let d' := (handle_new_payment d tx detail now inv).1.1 in
     wallet_map d' = wallet_map d /\
     (seen_tx d' = seen_tx d \/
      exists sig, tx_sig tx = Some sig /\ ~ In sig (seen_tx d) /\
                  seen_tx d' = (seen_tx d ++ [sig])%list)) /\
  (forall d frm text now, seen_tx (handle_message d frm text now).1 = seen_tx d) /\
  (forall d clock net, seen_tx (daily_sweep d clock net).1 = seen_tx d).
Proof.
  split; [| split].
  - intros d tx detail now inv. cbn zeta. unfold handle_new_payment.
    destruct (tx_sig tx) as [sig|] eqn:Hs; [| by split; [| left]].
    destruct (existsb (String.eqb sig) (seen_tx d)) eqn:E; [by split; [| left] |].
    apply existsb_eqb_false in E.
    set (d1 := {| users := users d; wallet_map := wallet_map d;
                  seen_tx := (seen_tx d ++ [sig])%list |}).
    destruct (payment_body_cases d1 sig detail now inv) as [Eb | [Eb | (s & u & _ & Eb)]];
      rewrite Eb; cbn; [by split; [| right; exists sig] | by split; [| right; exists sig] |].
    split; [done | right; by exists sig].
  - intros d frm text now. unfold handle_message. by repeat case_match.
  - intros d clock net. by rewrite daily_sweep_state, sweep_spec_seen.
Qed.

(** X3: every store the code builds is well formed: the store [load_data]
    starts from without a file, and every [/start] or [/myjoin], payment
    and sweep keeps it so. *)
Theorem data_wf_invariant `{PyNum} :
  data_wf {| users := ∅; wallet_map := ∅; seen_tx := [] |} /\
  forall d, data_wf d ->
    (forall frm text now, data_wf (handle_message d frm text now).1) /\
    (forall tx detail now inv, data_wf (handle_new_payment d tx detail now inv).1.1) /\
    (forall clock net, data_wf (daily_sweep d clock net).1).
Proof.
  split; [exact data_wf_init |]. intros d Hwf. split; [| split]; intros.
  - by apply data_wf_handle_message.
  - by apply data_wf_handle_new_payment.
  - by apply data_wf_daily_sweep.
Qed.

(** ** Sweeps with nothing to revoke *)

Lemma fresh_not_expired (t now : Z) k r :
  (t <= now)%Z ->
  (is_whitelisted k = true \/ forall l, last_active r = Some l -> (now - l <= TTL)%Z) ->
  expired t k r = false.
Proof.
  intros Ht [Hwl | Hf]; unfold expired; [by rewrite Hwl |].
  destruct (last_active r) as [l|]; [| by rewrite andb_false_r].
  specialize (Hf l eq_refl). rewrite (proj2 (Z.ltb_ge TTL (t - l))) by lia.
  by rewrite andb_false_r.
Qed.

Lemma sweep_one_not_expired t net k info d :
  expired t k info = false -> sweep_one t net k info d = (d, [], false).
Proof.
  unfold expired, sweep_one. destruct (is_whitelisted k); [done |]. cbn.
  destruct (last_active info); [| done]. intros ->. done.
Qed.

Lemma sweep_loop_idle clock net i l d c :
  (forall k info, In (k, info) l -> forall n, expired (clock n) k info = false) ->
  sweep_loop clock net i l d c = (d, [], c).
Proof.
  revert i c. induction l as [| [k info] l IH]; intros i c Hl; [done |].
  cbn [sweep_loop]. rewrite sweep_one_not_expired by (apply Hl; by left).
  rewrite IH by (intros; apply Hl; by right). by rewrite orb_false_r.
Qed.

Lemma in_map_to_list_users d k info :
  In (k, info) (map_to_list (users d)) -> users d !! k = Some info.
Proof. intros Hin. apply elem_of_map_to_list. by apply list_elem_of_In. Qed.

(** X4: a sweep all of whose clock readings are at most [now], at a time
    when every record is whitelisted, has no timestamp, or was active at
    most [TTL] before [now], changes nothing and performs no effect: no
    kick, no message and no save. *)
Theorem daily_sweep_idle d clock net now :
  (forall n, (clock n <= now)%Z) ->
  (forall k r, users d !! k = Some r ->
     is_whitelisted k = true \/ forall l, last_active r = Some l -> (now - l <= TTL)%Z) ->
  daily_sweep d clock net = (d, []).
Proof.
  intros Hclock Hfresh. unfold daily_sweep. rewrite sweep_loop_idle; [done |].
  intros k info Hin n. apply (fresh_not_expired _ now); [apply Hclock |].
  apply Hfresh. by apply in_map_to_list_users.
Qed.

Lemma sweep_spec_keeps_record clock i l k r :
  (forall info n, In (k, info) l -> expired (clock n) k info = false) ->
  forall d,
    (users d !! k = Some r -> users (sweep_spec clock i l d) !! k = Some r) /\
    (forall w, wallet_map d !! w = Some k -> wallet_map (sweep_spec clock i l d) !! w = Some k).
Proof.
  revert i. induction l as [| [k' info] l IH]; intros i Hl d; [done |]. cbn.
  destruct (expired (clock i) k' info) eqn:He.
  - assert (Hne : k' <> k).
    { intros ->. rewrite (Hl info i) in He; [discriminate | by left]. }
    destruct (IH (S i) ltac:(intros; apply Hl; by right) (revoke k' d)) as [IH1 IH2].
    split.
    + intros Hr. apply IH1. cbn. by rewrite lookup_delete_ne.
    + intros w Hw. apply IH2. cbn. apply map_lookup_filter_Some. by split.
  - apply IH. intros; apply Hl; by right.
Qed.

Lemma sweep_keeps_fresh_record d clock net now k r :
  users d !! k = Some r ->
  (forall n, (clock n <= now)%Z) ->
  (is_whitelisted k = true \/ forall l, last_active r = Some l -> (now - l <= TTL)%Z) ->
  users (daily_sweep d clock net).1 !! k = Some r /\
  forall w, wallet_map d !! w = Some k -> wallet_map (daily_sweep d clock net).1 !! w = Some k.
Proof.
  intros Hr Hclock Hfresh. rewrite daily_sweep_state.
  destruct (sweep_spec_keeps_record clock 0 (map_to_list (users d)) k r) with (d := d)
    as [H1 H2].
  - intros info n Hin. apply in_map_to_list_users in Hin. rewrite Hr in Hin.
    inversion Hin; subst. by apply (fresh_not_expired _ now).
  - split; [by apply H1 | exact H2].
Qed.

(** X5: in a sweep all of whose clock readings are at most [now], a record
    that is whitelisted, has no timestamp, or was last active at most [TTL]
    before [now] is kept unchanged, and so is every wallet-map entry
    pointing to it. *)
Theorem daily_sweep_keeps_fresh d clock net now k r :
  users d !! k = Some r ->
  (forall n, (clock n <= now)%Z) ->
  (is_whitelisted k = true \/ forall l, last_active r = Some l -> (now - l <= TTL)%Z) ->
  users (daily_sweep d clock net).1 !! k = Some r /\
  forall w, wallet_map d !! w = Some k -> wallet_map (daily_sweep d clock net).1 !! w = Some k.
Proof. apply sweep_keeps_fresh_record. Qed.

(** ** The Solscan poll *)

Section SolscanProofs.

Context `{PyNum}.

Lemma handle_new_payment_seen_incl d tx detail now inv s :
  In s (seen_tx d) -> In s (seen_tx (handle_new_payment d tx detail now inv).1.1).
Proof.
  intros Hs. unfold handle_new_payment.
  destruct (tx_sig tx) as [sig|]; [| done].
  destruct (existsb (String.eqb sig) (seen_tx d)); [done |].
  destruct (payment_body _ sig detail now inv) as [[d2 evs]|] eqn:Hb; cbn.
  - apply payment_body_seen in Hb. rewrite Hb. cbn. apply in_or_app. by left.
  - apply in_or_app. by left.
Qed.

Lemma solscan_tick_seen_incl d l s :
  In s (seen_tx d) -> In s (seen_tx (solscan_tick d l).1.1).
Proof.
  revert d. induction l as [| [[[tx detail] now] inv] l IH]; intros d Hs; [done |]. cbn.
  pose proof (handle_new_payment_seen_incl d tx detail now inv s Hs) as Hs1.
  destruct (handle_new_payment d tx detail now inv) as [[d1 e1] [u|]]; cbn in *; [| done].
  specialize (IH d1 Hs1). destruct (solscan_tick d1 l) as [[d2 e2] o2]. done.
Qed.

(** X7: after a tick that ran to the end, every transaction of the batch
    that has an identifier is in [seen_tx], so a later tick over the same
    transactions (whatever their details, the clock and the invite link)
    leaves the store as it is and performs no effect. *)
Theorem solscan_tick_rerun d l d' e l' :
  solscan_tick d l = (d', e, Ok tt) ->
  (forall x', In x' l' -> exists x, In x l /\ x.1.1.1 = x'.1.1.1) ->
  solscan_tick d' l' = (d', [], Ok tt).
Proof.
  intros Hrun Hl'.
  assert (Hseen : forall x sig, In x l -> tx_sig x.1.1.1 = Some sig -> In sig (seen_tx d')).
  { clear Hl'. revert d e Hrun.
    induction l as [| [[[tx detail] now] inv] l IH]; intros d e Hrun x sig Hx Hs; [done |].
    cbn in Hrun.
    pose proof (handle_new_payment_marks d tx sig detail now inv) as Hm.
    pose proof (solscan_tick_seen_incl (handle_new_payment d tx detail now inv).1.1 l sig) as Hi.
    destruct (handle_new_payment d tx detail now inv) as [[d1 e1] [u|]]; [| discriminate].
    cbn in Hm, Hi. destruct (solscan_tick d1 l) as [[d2 e2] o2] eqn:E2.
    inversion Hrun; subst. destruct Hx as [<- | Hx].
    - cbn in Hs. apply Hi, Hm, Hs.
    - by apply (IH d1 e2 E2 x). }
  clear Hrun. induction l' as [| [[[tx detail] now] inv] l' IH]; [done |].
  cbn [solscan_tick].
  destruct (tx_sig tx) as [sig|] eqn:Hs.
  - destruct (Hl' (tx, detail, now, inv) ltac:(by left)) as (x & Hx & Heq).
    rewrite (handle_new_payment_seen d' tx sig detail now inv Hs);
      [| apply (Hseen x sig Hx); cbn in Heq; by rewrite Heq].
    cbn. rewrite IH; [done |]. intros; apply Hl'; by right.
  - unfold handle_new_payment at 1. rewrite Hs. cbn.
    rewrite IH; [done |]. intros; apply Hl'; by right.
Qed.

End SolscanProofs.

(** ** The Telegram poll *)

Lemma last_cons_is_Some {A} (p : A) l : is_Some (last (p :: l)).
Proof. revert p. induction l as [| q l IH]; intros p; [by eexists |]. apply IH. Qed.

(** X8: a batch of updates that ran to the end leaves the [offset] cursor
    one past the id of its last update, whether or not that update had a
    message; an empty batch leaves it as it was. *)
Theorem poll_batch_offset_ok d off ups d' e o :
  poll_batch d off ups = (d', e, o, Ok tt) ->
  o = match last ups with None => off | Some (u, _) => Some (update_id u + 1)%Z end.
Proof.
  revert d off d' e o. induction ups as [| [u now] ups IH]; intros d off d' e o Hb.
  - cbn in Hb. by inversion Hb.
  - cbn [poll_batch] in Hb.
    assert (Hlast : last ((u, now) :: ups) =
                    match ups with [] => Some (u, now) | _ => last ups end)
      by (destruct ups; done).
    rewrite Hlast.
    destruct (update_msg u) as [m|].
    + destruct (msg_text m) as [text|]; [| discriminate].
      destruct (handle_message d (msg_from m) text now) as [d1 e1].
      destruct (poll_batch d1 _ ups) as [[[d2 e2] o2] x] eqn:E.
      inversion Hb; subst. apply IH in E. rewrite E. destruct ups as [| p ups]; [reflexivity |].
      destruct (last_cons_is_Some p ups) as [q Hq]. rewrite Hq. by destruct q.
    + apply IH in Hb. rewrite Hb. destruct ups as [| p ups]; [reflexivity |].
      destruct (last_cons_is_Some p ups) as [q Hq]. rewrite Hq. by destruct q.
Qed.

(** ** The memo check *)

Lemma sapp_assoc (a b c : string) : (a ++ b) ++ c = a ++ b ++ c.
Proof. induction a as [| x a IH]; [done | exact (f_equal (String x) IH)]. Qed.

Lemma sapp_nil_r (a : string) : a ++ EmptyString = a.
Proof. induction a as [| x a IH]; [done | exact (f_equal (String x) IH)]. Qed.

Lemma sub_refl t : sub t t.
Proof. exists EmptyString, EmptyString. cbn. by rewrite sapp_nil_r. Qed.

Lemma sub_app_l t u x : sub t u -> sub t (x ++ u).
Proof. intros (a & b & ->). exists (x ++ a), b. by rewrite sapp_assoc. Qed.

Lemma sub_app_r t u x : sub t u -> sub t (u ++ x).
Proof. intros (a & b & ->). exists a, (b ++ x). by rewrite !sapp_assoc. Qed.

Lemma sub_trans t u v : sub t u -> sub u v -> sub t v.
Proof.
  intros (a & b & ->) (c & e & ->). exists (c ++ a), (b ++ e).
  by rewrite !sapp_assoc.
Qed.

Lemma prefix_app p b : String.prefix p (p ++ b) = true.
Proof.
  induction p as [| c p IH]; [by destruct b |].
  change ((if ascii_dec c c then String.prefix p (p ++ b) else false) = true).
  destruct (ascii_dec c c); [exact IH | done].
Qed.

Lemma prefix_sub p s : String.prefix p s = true -> exists b, s = p ++ b.
Proof.
  revert s. induction p as [| c p IH]; intros s Hp; [by exists s |].
  destruct s as [| c' s]; [discriminate |].
  change ((if ascii_dec c c' then String.prefix p s else false) = true) in Hp.
  destruct (ascii_dec c c') as [<- |]; [| discriminate].
  destruct (IH s Hp) as [b ->]. by exists b.
Qed.

Lemma contains_sub p s : Py.contains p s = true <-> sub p s.
Proof.
  split.
  - induction s as [| c s IH]; intros Hc.
    + change (String.prefix p EmptyString || false = true) in Hc.
      apply orb_true_iff in Hc as [Hc | Hc]; [| discriminate].
      apply prefix_sub in Hc as [b Hb]. exists EmptyString, b. exact Hb.
    + change (String.prefix p (String c s) || Py.contains p s = true) in Hc.
      apply orb_true_iff in Hc as [Hc | Hc].
      * apply prefix_sub in Hc as [b Hb]. exists EmptyString, b. exact Hb.
      * apply (sub_app_l _ _ (String c EmptyString)). by apply IH.
  - intros (a & b & ->). induction a as [| c a IH].
    + pose proof (prefix_app p b) as Hpre. change (Py.contains p (p ++ b) = true).
      destruct (p ++ b) as [| c s].
      * change (String.prefix p EmptyString || false = true). by rewrite Hpre.
      * change (String.prefix p (String c s) || Py.contains p s = true). by rewrite Hpre.
    + change (String.prefix p (String c (a ++ p ++ b)) || Py.contains p (a ++ p ++ b) = true).
      rewrite IH. apply orb_true_r.
Qed.

Lemma escape_app a b : escape (a ++ b) = escape a ++ escape b.
Proof.
  induction a as [| c a IH]; [done |].
  change (escape_char c ++ escape (a ++ b) = (escape_char c ++ escape a) ++ escape b).
  by rewrite IH, sapp_assoc.
Qed.

Lemma escape_sub p s : escape p = p -> sub p s -> sub p (escape s).
Proof.
  intros Hp (a & b & ->). rewrite !escape_app, Hp.
  exists (escape a), (escape b). done.
Qed.

Lemma join_sep_sub sep l x : In x l -> sub x (join_sep sep l).
Proof.
  induction l as [| y l IH]; intros Hin; [done |].
  destruct Hin as [<- | Hin].
  - destruct l; cbn; [apply sub_refl | apply sub_app_r, sub_refl].
  - destruct l as [| z l]; [done |]. cbn [join_sep].
    apply sub_app_l, sub_app_l, IH, Hin.
Qed.

Lemma mentions_dumps p j : escape p = p -> mentions p j -> sub p (dumps j).
Proof.
  intros Hp. induction 1 as [s Hs | l x Hin _ IH | kvs k v Hin Hk | kvs k v Hin _ IH]; cbn.
  - apply sub_app_l, sub_app_r. apply escape_sub; [done | by apply contains_sub].
  - apply sub_app_l, sub_app_r. apply (sub_trans _ _ _ IH), join_sep_sub.
    apply in_map_iff. by exists x.
  - apply sub_app_l, sub_app_r.
    apply (sub_trans _ (dump_str k ++ ": " ++ dumps v)).
    + apply sub_app_r, sub_app_l, sub_app_r. apply escape_sub; [done | by apply contains_sub].
    + apply join_sep_sub. apply in_map_iff. by exists (k, v).
  - apply sub_app_l, sub_app_r.
    apply (sub_trans _ (dump_str k ++ ": " ++ dumps v)).
    + apply sub_app_l, sub_app_l, IH.
    + apply join_sep_sub. apply in_map_iff. by exists (k, v).
Qed.

(** X10: the memo check passes as soon as ["SLC30"] occurs anywhere in a
    string of the detail, in a value or in a key, at any depth, not only
    in a memo field. *)
Theorem memo_found_mentions detail :
  mentions "SLC30" detail -> memo_found detail = true.
Proof.
  intros Hm. unfold memo_found. apply contains_sub.
  apply mentions_dumps; [reflexivity | exact Hm].
Qed.

(** ** The payer *)

Section PayerProofs.

Context `{PyNum}.

(** X12: a new transaction whose detail has no truthy ["feePayer"],
    ["signer"] nor ["transaction"] grants nothing, whatever it pays and
    whatever its memo: it is marked seen and saved, and fails only when the
    amount loop raises. *)
Theorem handle_new_payment_no_payer d tx sig kvs now inv :
  tx_sig tx = Some sig -> ~ In sig (seen_tx d) ->
  truthy (default JNull (assoc "feePayer" kvs)) = false ->
  truthy (default JNull (assoc "signer" kvs)) = false ->
  truthy (default (JObj []) (assoc "transaction" kvs)) = false ->
  handle_new_payment d tx (JObj kvs) now inv =
  ({| users := users d; wallet_map := wallet_map d; seen_tx := (seen_tx d ++ [sig])%list |},
   [Save],
   match sum_lamports (JObj kvs) with Ok _ => Ok tt | Raise => Raise end).
Proof.
  intros Hs Hn Hf Hsg Ht. unfold handle_new_payment. rewrite Hs.
  rewrite (proj2 (existsb_eqb_false _ _) Hn). unfold payment_body.
  destruct (sum_lamports (JObj kvs)) as [l|]; cbn -[memo_found]; [| done].
  destruct (Z.leb MIN_LAMPORTS l && memo_found (JObj kvs)); [| done].
  cbn. rewrite Hf, Hsg. cbn. rewrite Ht. done.
Qed.

(** X13: a sender without a handle (with a non-negative id, as every user
    id is) who registered a wallet is not credited for paying from it: the
    grant goes to the username ["@"] followed by the decimal id, a record
    apart, and the record of the registration is left as it was (no
    [last_paid], so the sweep still counts from its join). *)
Theorem handleless_payment_misfiled d frm w tx sig detail now inv l :
  data_wf d ->
  from_username frm = None -> (0 <= from_id frm)%Z ->
  tx_sig tx = Some sig -> ~ In sig (seen_tx d) ->
  sum_lamports detail = Ok l -> (MIN_LAMPORTS <= l)%Z -> memo_found detail = true ->
  payer detail = Ok (JStr w) -> wallet_map d !! w = Some (sender_uname frm) ->
  let d' := (handle_new_payment d tx detail now inv).1.1 in
  users d' !! sender_uname frm = users d !! sender_uname frm /\
  exists r, users d' !! ("@" ++ sender_uname frm) = Some r /\ last_paid r = Some now.
Proof.
  intros [_ Hwf] Hn Hz Hs Hnew Hsum Hle Hm Hp Hw. cbn zeta.
  unfold handle_new_payment. rewrite Hs, (proj2 (existsb_eqb_false _ _) Hnew).
  unfold payment_body. rewrite Hsum. cbn.
  rewrite (proj2 (Z.leb_le _ _) Hle), Hm, Hp. cbn.
  destruct (Hwf w _ Hw) as [Hw0 Hu0].
  rewrite (proj2 (String.eqb_neq w EmptyString) Hw0). cbn. rewrite Hw.
  rewrite (proj2 (String.eqb_neq _ EmptyString) Hu0). cbn.
  assert (Hk : grant_key (sender_uname frm) = "@" ++ sender_uname frm).
  { unfold grant_key. assert (Hu : sender_uname frm = Py.str_int (from_id frm))
      by (unfold sender_uname; by rewrite Hn).
    pose proof (str_int_isalnum _ Hz) as Hal. rewrite <- Hu in Hal.
    by rewrite (isalnum_no_at _ Hal), Hal. }
  unfold grant_access_to. rewrite Hk. cbn. split.
  - rewrite lookup_insert_ne; [done | apply at_prefix_ne].
  - rewrite lookup_insert_eq. by eexists.
Qed.

End PayerProofs.

(** ** A grant and the sweep *)

(** X14: a grant at time [now] renews the membership for [TTL]: every sweep
    whose clock readings are at most [now + TTL] keeps the record the
    grant wrote, as the grant left it. *)
Theorem grant_survives_sweeps d username w sig now inv clock net :
  (forall n, (clock n <= now + TTL)%Z) ->
  let d' := (grant_access_to d username w sig now inv).1 in
  exists r, users d' !! grant_key username = Some r /\ last_paid r = Some now /\
            users (daily_sweep d' clock net).1 !! grant_key username = Some r.
Proof.
  intros Hclock. cbn zeta. unfold grant_access_to at 1 2. cbn.
  rewrite lookup_insert_eq. eexists. split; [done | split; [done |]].
  eapply (sweep_keeps_fresh_record _ _ _ (now + TTL)).
  - cbn. apply lookup_insert_eq.
  - exact Hclock.
  - right. intros l Hl. cbn in Hl. inversion Hl. lia.
Qed.

(** ** When the sweep saves *)

Lemma sweep_one_flag t net k info d :
  (sweep_one t net k info d).2 = expired t k info /\ ~ In Save (sweep_one t net k info d).1.2.
Proof.
  unfold sweep_one, expired.
  destruct (is_whitelisted k); [cbn; split; [done | tauto] |]. cbn.
  destruct (last_active info) as [last|]; [| cbn; split; [done | tauto]].
  destruct (Z.ltb TTL (t - last)); cbn; [| split; [done | tauto]].
  split; [done |].
  destruct (user_id info) as [z|]; [| cbn; tauto].
  destruct (Z.eqb z 0); [cbn; tauto |].
  intros Hin. apply in_app_or in Hin as [Hin | Hin];
    [destruct net.1 | destruct net.2]; cbn in Hin; naive_solver.
Qed.

Lemma sweep_loop_flag clock net i l d c :
  ((sweep_loop clock net i l d c).2 = true <->
   c = true \/ exists j k r, nth_error l j = Some (k, r) /\ expired (clock (i + j)) k r = true) /\
  ~ In Save (sweep_loop clock net i l d c).1.2.
Proof.
  revert i d c. induction l as [| [k info] l IH]; intros i d c.
  - cbn. split; [| tauto]. split; [by left |].
    intros [Hc | (j & k & r & Hj & _)]; [done |]. by destruct j.
  - cbn [sweep_loop].
    destruct (sweep_one_flag (clock i) (net i) k info d) as [Hf Hs].
    destruct (sweep_one (clock i) (net i) k info d) as [[d1 e1] c1]. cbn in Hf, Hs.
    destruct (IH (S i) d1 (c || c1)) as [IHf IHs].
    destruct (sweep_loop clock net (S i) l d1 (c || c1)) as [[d2 e2] c2]. cbn in *.
    split.
    + rewrite IHf, orb_true_iff, Hf. split.
      * intros [[Hc | He] | (j & k' & r & Hj & He)]; [by left | |].
        -- right. exists 0, k, info. rewrite Nat.add_0_r. by split.
        -- right. exists (S j), k', r. rewrite Nat.add_succ_r. by split.
      * intros [Hc | ([| j] & k' & r & Hj & He)]; [by left; left | |].
        -- cbn in Hj. inversion Hj; subst. rewrite Nat.add_0_r in He. by left; right.
        -- right. exists j, k', r. rewrite <- Nat.add_succ_r. by split.
    + intros Hin. apply in_app_or in Hin as [Hin | Hin]; contradiction.
Qed.

(** X15: a sweep saves the store exactly when it revoked a record, i.e.
    when some record of the snapshot was expired at its own clock reading;
    the save, when there is one, is its last effect. *)
Theorem daily_sweep_saves d clock net :
  (In Save (daily_sweep d clock net).2 <->
   exists i k r, nth_error (map_to_list (users d)) i = Some (k, r) /\
                 expired (clock i) k r = true) /\
  (In Save (daily_sweep d clock net).2 ->
   exists evs, (daily_sweep d clock net).2 = (evs ++ [Save])%list).
Proof.
  unfold daily_sweep.
  destruct (sweep_loop_flag clock net 0 (map_to_list (users d)) d false) as [Hf Hs].
  destruct (sweep_loop clock net 0 _ d false) as [[d' evs] c]. cbn in *.
  assert (Hf' : c = true <-> exists i k r, nth_error (map_to_list (users d)) i = Some (k, r) /\
                                           expired (clock i) k r = true).
  { rewrite Hf. split.
    - intros [Hc | (j & k & r & Hj & He)]; [done | by exists j, k, r].
    - intros (j & k & r & Hj & He). right. by exists j, k, r. }
  split.
  - rewrite <- Hf'. split.
    + intros Hin. apply in_app_or in Hin as [Hin | Hin]; [contradiction |].
      destruct c; [done | destruct Hin].
    + intros ->. apply in_or_app. right. by left.
  - intros Hin. apply in_app_or in Hin as [Hin | Hin]; [contradiction |].
    destruct c; [by exists evs | destruct Hin].
Qed.

(** ** The seen list stays duplicate-free *)

Section NoDupProofs.

Context `{PyNum}.

Lemma handle_new_payment_nodup d tx detail now inv :
  NoDup (seen_tx d) -> NoDup (seen_tx (handle_new_payment d tx detail now inv).1.1).
Proof.
  intros Hnd. unfold handle_new_payment.
  destruct (tx_sig tx) as [sig|]; [| done].
  destruct (existsb (String.eqb sig) (seen_tx d)) eqn:E; [done |].
  apply existsb_eqb_false in E.
  assert (Hnd' : NoDup (seen_tx d ++ [sig])%list).
  { apply NoDup_app. split; [done | split; [| apply NoDup_singleton]].
    intros x Hx Hx'. apply list_elem_of_singleton in Hx' as ->.
    by apply E, list_elem_of_In. }
  destruct (payment_body _ sig detail now inv) as [[d2 evs]|] eqn:Hb; cbn; [| done].
  apply payment_body_seen in Hb. by rewrite Hb.
Qed.

Lemma solscan_tick_nodup d l :
  NoDup (seen_tx d) -> NoDup (seen_tx (solscan_tick d l).1.1).
Proof.
  revert d. induction l as [| [[[tx detail] now] inv] l IH]; intros d Hnd; [done |]. cbn.
  pose proof (handle_new_payment_nodup d tx detail now inv Hnd) as Hnd1.
  destruct (handle_new_payment d tx detail now inv) as [[d1 e1] [u|]]; cbn in *; [| done].
  specialize (IH d1 Hnd1). destruct (solscan_tick d1 l) as [[d2 e2] o2]. done.
Qed.

(** X16: [seen_tx] never holds an identifier twice: a tick of the Solscan
    poll keeps it duplicate-free (each transaction is appended only when
    absent), and so do messages and sweeps, which leave it unchanged. *)
Theorem seen_tx_nodup d :
  NoDup (seen_tx d) ->
  (forall l, NoDup (seen_tx (solscan_tick d l).1.1)) /\
  (forall frm text now, NoDup (seen_tx (handle_message d frm text now).1)) /\
  (forall clock net, NoDup (seen_tx (daily_sweep d clock net).1)).
Proof.
  intros Hnd. split; [| split].
  - intros l. by apply solscan_tick_nodup.
  - intros frm text now. unfold handle_message. by repeat case_match.
  - intros clock net. by rewrite daily_sweep_state, sweep_spec_seen.
Qed.

End NoDupProofs.

(** ** Messages that do not write *)

(** X17: only [/start] writes: a message whose stripped, lower-cased text
    does not start with ["/start"] leaves the store as it is and is not
    followed by a save; a [/myjoin] gets exactly one reply, to the sender's
    id, and any other text gets none. *)
Theorem handle_message_readonly d frm text now :
  Py.startswith (Py.lower (Py.strip text)) "/start" = false ->
  (handle_message d frm text now).1 = d /\
  ((Py.startswith (Py.lower (Py.strip text)) "/myjoin" = true /\
    exists m, (handle_message d frm text now).2 = [Send (ToId (from_id frm)) m]) \/
   (Py.startswith (Py.lower (Py.strip text)) "/myjoin" = false /\
    (handle_message d frm text now).2 = [])).
Proof.
  intros Hs. unfold handle_message. rewrite Hs.
  destruct (Py.startswith (Py.lower (Py.strip text)) "/myjoin") eqn:Hm.
  - split; [by repeat case_match |]. left. split; [done |].
    destruct (users d !! sender_uname frm) as [info|]; [| by eexists].
    destruct (rec_truthy info); by eexists.
  - split; [done |]. right. by split.
Qed.

(** ** Transfers listed under several keys *)

Section SumProofs.

Context `{PyNum}.

Lemma sum_items_shift items acc :
  sum_items items acc =
  match sum_items items 0%Z with Ok s => Ok (acc + s)%Z | Raise => Raise end.
Proof.
  revert acc. induction items as [| it items IH]; intros acc; cbn -[item_lamports].
  - by rewrite Z.add_0_r.
  - destruct (item_lamports it) as [a|]; cbn -[item_lamports]; [| done].
    rewrite (IH (acc + a)%Z), (IH (0 + a)%Z).
    destruct (sum_items items 0%Z); [| done]. f_equal. lia.
Qed.

(** X18: the amount loop does not tell transfers apart: a detail that lists
    the same transfers under ["nativeTransfers"] and under ["transfers"]
    (and nothing under the other keys) is credited twice their amount. *)
Theorem sum_lamports_double_count kvs items :
  assoc "nativeTransfers" kvs = Some (JArr items) ->
  assoc "transfers" kvs = Some (JArr items) ->
  assoc "solTransfers" kvs = None -> assoc "tokenTransfers" kvs = None ->
  assoc "sol_transfer" kvs = None ->
  sum_lamports (JObj kvs) =
  match sum_items items 0%Z with Ok s => Ok (2 * s)%Z | Raise => Raise end.
Proof.
  intros Hn Ht Hs Htk Hst. unfold sum_lamports, transfer_keys. cbn [sum_keys].
  unfold get, get_default. rewrite Hn, Ht, Hs, Htk, Hst. cbn.
  rewrite !iter_items_arr. cbn.
  destruct (sum_items items 0%Z) as [s|] eqn:E; cbn; [| done].
  rewrite sum_items_shift, E. cbn. f_equal. lia.
Qed.

End SumProofs.

(* ------------------------------------------------------------------ *)
(** * The theorems at concrete inputs                                 *)
(* ------------------------------------------------------------------ *)

Module Witnesses.
Import Scenario.

Lemma handle_new_payment_seen_noop_witness :
  tx_sig tx1 = Some "sig1" /\ In "sig1" (seen_tx d2) /\
  @handle_new_payment py_num_ints d2 tx1 detail_ok 200 None = (d2, [], mret tt).
Proof.
  split; [reflexivity |]. split; [vm_compute; left; reflexivity |].
  apply (@handle_new_payment_seen_noop py_num_ints d2 tx1 "sig1");
    [reflexivity | vm_compute; left; reflexivity].
Defined.

Lemma handle_new_payment_mark_first_witness :
  tx_sig tx1 = Some "sig1" /\ ~ In "sig1" (seen_tx d1) /\
  let '(d', evs, res) := @handle_new_payment py_num_ints d1 tx1 detail_bad 100 None in
  (res = Raise ->
     d' = {| users := users d1; wallet_map := wallet_map d1;
             seen_tx := (seen_tx d1 ++ ["sig1"])%list |} /\ evs = [Save]) /\
  In "sig1" (seen_tx d') /\
  (forall detail' now' inv',
     @handle_new_payment py_num_ints d' tx1 detail' now' inv' = (d', [], mret tt)).
Proof.
  assert (Hn : ~ In "sig1" (seen_tx d1)) by (vm_compute; intros []).
  split; [reflexivity |]. split; [exact Hn |].
  exact (@handle_new_payment_mark_first py_num_ints d1 tx1 "sig1" detail_bad 100 None eq_refl Hn).
Defined.

Lemma handle_new_payment_grant_iff_witness :
  tx_sig tx1 = Some "sig1" /\ ~ In "sig1" (seen_tx d1) /\
  (forall w u, wallet_map d1 !! w = Some u -> w <> EmptyString /\ u <> EmptyString) /\
  let '(d', evs, _) := @handle_new_payment py_num_ints d1 tx1 detail_ok 100 (Some "link") in
  (@welcome_sent evs <-> @qualifies py_num_ints (wallet_map d1) detail_ok) /\
  (~ @qualifies py_num_ints (wallet_map d1) detail_ok ->
     users d' = users d1 /\ wallet_map d' = wallet_map d1 /\
     seen_tx d' = (seen_tx d1 ++ ["sig1"])%list).
Proof.
  assert (Hn : ~ In "sig1" (seen_tx d1)) by (vm_compute; intros []).
  assert (Hw : forall w u, wallet_map d1 !! w = Some u -> w <> EmptyString /\ u <> EmptyString)
    by exact (proj2 (data_wf_handle_message d0 alice "/start WalletA" 5 data_wf_init)).
  split; [reflexivity |]. split; [exact Hn |]. split; [exact Hw |].
  exact (@handle_new_payment_grant_iff py_num_ints d1 tx1 "sig1" detail_ok 100 (Some "link")
           eq_refl Hn Hw).
Defined.

Lemma join_never_changes_witness :
  users d1 !! "@alice" ≫= join = Some 5%Z /\
  (forall frm text now, users (handle_message d1 frm text now).1 !! "@alice" ≫= join = Some 5%Z) /\
  (forall username w sig now inv,
     users (grant_access_to d1 username w sig now inv).1 !! "@alice" ≫= join = Some 5%Z) /\
  (forall tx detail now inv,
     users (@handle_new_payment py_num_ints d1 tx detail now inv).1.1 !! "@alice" ≫= join = Some 5%Z).
Proof.
  split; [reflexivity |].
  exact (@join_never_changes py_num_ints d1 "@alice" 5%Z eq_refl).
Defined.

Lemma start_remap_wallet_witness :
  Py.startswith (Py.lower (Py.strip "/start WalletB")) "/start" = true /\
  Py.split (Py.strip "/start WalletB") = ["/start"; "WalletB"] /\
  users d1 !! sender_uname alice =
    Some {| join := Some 5%Z; last_paid := None; wallet := Some "WalletA"; user_id := Some 42%Z |} /\
  let d' := (handle_message d1 alice "/start WalletB" 9).1 in
  wallet_map d' !! Py.strip "WalletB" = Some (sender_uname alice) /\
  (exists r', users d' !! sender_uname alice = Some r' /\
              wallet r' = Some (Py.strip "WalletB") /\ join r' = Some 5%Z) /\
  (forall w, w <> Py.strip "WalletB" -> wallet_map d' !! w = wallet_map d1 !! w).
Proof.
  split; [reflexivity |]. split; [reflexivity |]. split; [reflexivity |].
  exact (start_remap_wallet d1 alice "/start WalletB" 9 "/start" "WalletB" []
           {| join := Some 5%Z; last_paid := None; wallet := Some "WalletA"; user_id := Some 42%Z |}
           5%Z eq_refl eq_refl eq_refl eq_refl).
Defined.

Lemma myjoin_reply_witness :
  Py.startswith (Py.lower (Py.strip "/myjoin")) "/myjoin" = true /\ data_wf d1 /\
  handle_message d1 alice "/myjoin" 7 =
    (d1, [Send (ToId (from_id alice))
            (match users d1 !! sender_uname alice with
             | None => MsgNoRecord
             | Some r =>
                 MsgStatus (join r) (last_paid r)
                   (match last_paid r with Some l => Some (l + TTL)%Z | None => None end)
             end)]).
Proof.
  assert (Hwf : data_wf d1)
    by exact (data_wf_handle_message d0 alice "/start WalletA" 5 data_wf_init).
  split; [reflexivity |]. split; [exact Hwf |].
  exact (myjoin_reply d1 alice "/myjoin" 7 eq_refl Hwf).
Defined.

Lemma grant_key_at_prefix_witness :
  Py.startswith "12345" "@" = false /\ Py.isalnum "12345" = true /\
  users d_num !! "12345" = Some rec_num /\ users d_num !! ("@" ++ "12345") = None /\
  grant_key "12345" = "@" ++ "12345" /\
  (let d' := (grant_access_to d_num "12345" "WalletC" "sig9" 100 None).1 in
   users d' !! "12345" = Some rec_num /\
   exists r', users d' !! ("@" ++ "12345") = Some r' /\
              user_id r' = None /\ last_paid r' = Some 100%Z).
Proof.
  split; [reflexivity |]. split; [reflexivity |].
  split; [reflexivity |]. split; [reflexivity |].
  exact (grant_key_at_prefix d_num "12345" "WalletC" "sig9" 100 None rec_num
           eq_refl eq_refl eq_refl eq_refl).
Defined.

Lemma item_malformed_contributes_zero_witness :
  (get_or (JObj [("to", JStr WALLET)]) dest_keys = Ok (JStr WALLET) /\
   get_or (JObj [("to", JStr WALLET)]) amount_keys = Ok JNull /\
   @item_lamports py_num_ints (JObj [("to", JStr WALLET)]) = Ok 0%Z /\
   forall l1 l2 acc,
     @sum_items py_num_ints (l1 ++ JObj [("to", JStr WALLET)] :: l2) acc
     = @sum_items py_num_ints (l1 ++ l2) acc) /\
  @item_lamports py_num_ints (JObj [("to", JInt 5)]) = Raise /\
  @handle_new_payment py_num_ints d1 tx1
     (JObj [("nativeTransfers", JArr [JInt 7])]) 100 None =
  ({| users := users d1; wallet_map := wallet_map d1; seen_tx := (seen_tx d1 ++ ["sig1"])%list |},
   [Save], Raise).
Proof.
  destruct (@item_malformed_contributes_zero py_num_ints) as [Hz Hr].
  split; [| split].
  - split; [reflexivity |]. split; [reflexivity |].
    exact (Hz [("to", JStr WALLET)] (JStr WALLET) JNull
             eq_refl eq_refl (or_intror (ex_intro _ WALLET eq_refl))
             (or_intror (or_introl eq_refl))).
  - apply (Hr (JObj [("to", JInt 5)])). right.
    exists [("to", JInt 5)], (JInt 5). split; [reflexivity |]. split; [reflexivity |].
    split; [reflexivity | discriminate].
  - destruct (Hr (JInt 7)) as (_ & _ & Hp); [left; discriminate |].
    apply (Hp _ "nativeTransfers" [JInt 7]);
      [by left | reflexivity | by left | reflexivity | vm_compute; intros []].
Defined.

Lemma daily_sweep_ttl_witness :
  let clock := fun _ : nat => (31 * 86400 * 1000000)%Z in
  let net := fun _ : nat => (false, false) in
  users (daily_sweep d_old clock net).1 !! "@bob" = None /\
  (forall w, wallet_map (daily_sweep d_old clock net).1 !! w <> Some "@bob") /\
  users (daily_sweep d_old clock net).1 !! "@Steez431" = Some rec0.
Proof.
  intros clock net.
  destruct (daily_sweep_ttl d_old clock net) as [Hrm Hwl].
  destruct (Hrm "@bob" rec0 0%Z (31 * 86400 * 1000000)%Z) as [Hu Hw];
    [reflexivity | reflexivity | reflexivity | intros n; cbv; discriminate | reflexivity |].
  split; [exact Hu |]. split; [exact Hw |].
  apply Hwl; reflexivity.
Defined.

End Witnesses.

Module ExtraWitnesses.
Import Scenario.

Lemma daily_sweep_idle_witness :
  daily_sweep d_a clock100 net_ok = (d_a, []).
Proof.
  apply (daily_sweep_idle d_a clock100 net_ok 100).
  - intros n. unfold clock100. lia.
  - intros k r Hk. cbn in Hk. apply lookup_insert_Some in Hk as [[_ <-] | [_ Hk]].
    + right. intros l Hl. cbn in Hl. inversion Hl. unfold TTL. lia.
    + rewrite lookup_empty in Hk. discriminate.
Defined.

Lemma daily_sweep_keeps_fresh_witness :
  users d_a !! "@alice" = Some rec_a /\
  users (daily_sweep d_a clock100 net_ok).1 !! "@alice" = Some rec_a /\
  (forall w, wallet_map d_a !! w = Some "@alice" ->
             wallet_map (daily_sweep d_a clock100 net_ok).1 !! w = Some "@alice").
Proof.
  split; [reflexivity |].
  apply (daily_sweep_keeps_fresh d_a clock100 net_ok 100 "@alice" rec_a).
  - reflexivity.
  - intros n. unfold clock100. lia.
  - right. intros l Hl. cbn in Hl. inversion Hl. unfold TTL. lia.
Defined.

Lemma solscan_tick_rerun_witness :
  @solscan_tick py_num_ints d1 batch1 = (d2, [Send (ToId 42) MsgWelcome;
                                              Send (ToId 42) (MsgInvite "link"); Save; Save],
                                         Ok tt) /\
  @solscan_tick py_num_ints d2 batch2 = (d2, [], Ok tt).
Proof.
  assert (E : @solscan_tick py_num_ints d1 batch1 =
              (d2, [Send (ToId 42) MsgWelcome; Send (ToId 42) (MsgInvite "link"); Save; Save],
               Ok tt)) by (vm_compute; reflexivity).
  split; [exact E |].
  apply (@solscan_tick_rerun py_num_ints d1 batch1 d2 _ batch2 E).
  intros x' [<- | []]. exists (tx1, detail_ok, 100%Z, Some "link"). split; [by left | reflexivity].
Defined.

Lemma poll_batch_offset_ok_witness :
  poll_batch d1 None [(upd_ok 7, 10%Z); (upd_bad 8, 11%Z); (upd_ok 9, 12%Z)] =
  (d1, [Send (ToId 42) (MsgStatus (Some 5%Z) None None)], Some 9%Z, Raise) /\
  poll_batch d1 (Some 9%Z) [(upd_ok 9, 12%Z)] =
  (d1, [Send (ToId 42) (MsgStatus (Some 5%Z) None None)], Some 10%Z, Ok tt) /\
  Some 10%Z = Some (update_id (upd_ok 9) + 1)%Z.
Proof.
  split; [vm_compute; reflexivity |].
  assert (E : poll_batch d1 (Some 9%Z) [(upd_ok 9, 12%Z)] =
              (d1, [Send (ToId 42) (MsgStatus (Some 5%Z) None None)], Some 10%Z, Ok tt))
    by (vm_compute; reflexivity).
  split; [exact E |].
  exact (poll_batch_offset_ok d1 (Some 9%Z) [(upd_ok 9, 12%Z)] _ _ _ E).
Defined.

Lemma memo_found_mentions_witness :
  mentions "SLC30" (JObj [("note", JArr [JStr "paid, SLC30 inside"])]) /\
  memo_found (JObj [("note", JArr [JStr "paid, SLC30 inside"])]) = true.
Proof.
  assert (Hm : mentions "SLC30" (JObj [("note", JArr [JStr "paid, SLC30 inside"])])).
  { eapply mentions_val; [by left |].
    eapply mentions_arr; [by left |]. apply mentions_str. reflexivity. }
  split; [exact Hm | exact (memo_found_mentions _ Hm)].
Defined.

Lemma handle_new_payment_no_payer_witness :
  @sum_lamports py_num_ints (JObj kvs_nopayer) = Ok 150000000%Z /\
  memo_found (JObj kvs_nopayer) = true /\
  @handle_new_payment py_num_ints d1 tx1 (JObj kvs_nopayer) 100 (Some "link") =
  ({| users := users d1; wallet_map := wallet_map d1; seen_tx := (seen_tx d1 ++ ["sig1"])%list |},
   [Save], Ok tt).
Proof.
  split; [vm_compute; reflexivity |]. split; [vm_compute; reflexivity |].
  apply (@handle_new_payment_no_payer py_num_ints d1 tx1 "sig1" kvs_nopayer 100 (Some "link"));
    try reflexivity.
  vm_compute. intros [].
Defined.

Lemma handleless_payment_misfiled_witness :
  let d' := (@handle_new_payment py_num_ints d_num tx1 detail_num 100 None).1.1 in
  users d' !! "12345" = users d_num !! "12345" /\
  exists r, users d' !! "@12345" = Some r /\ last_paid r = Some 100%Z.
Proof.
  apply (@handleless_payment_misfiled py_num_ints d_num numeric "WalletC" tx1 "sig1"
           detail_num 100 None 150000000).
  - apply data_wf_handle_message, data_wf_init.
  - reflexivity.
  - cbn. lia.
  - reflexivity.
  - vm_compute. intros [].
  - vm_compute. reflexivity.
  - unfold MIN_LAMPORTS. lia.
  - vm_compute. reflexivity.
  - vm_compute. reflexivity.
  - vm_compute. reflexivity.
Defined.

Lemma grant_survives_sweeps_witness :
  let d' := (grant_access_to d_a "alice" "WalletA" "sig9" 100 None).1 in
  exists r, users d' !! grant_key "alice" = Some r /\ last_paid r = Some 100%Z /\
            users (daily_sweep d' (fun _ => (100 + TTL)%Z) net_ok).1 !! grant_key "alice" = Some r.
Proof.
  apply (grant_survives_sweeps d_a "alice" "WalletA" "sig9" 100 None).
  intros n. lia.
Defined.

Lemma seen_tx_nodup_witness :
  NoDup (seen_tx d2) /\
  (forall l, NoDup (seen_tx (@solscan_tick py_num_ints d2 l).1.1)).
Proof.
  assert (Hnd : NoDup (seen_tx d2)).
  { vm_compute. apply NoDup_singleton. }
  split; [exact Hnd |].
  apply (@seen_tx_nodup py_num_ints d2 Hnd).
Defined.

Lemma handle_message_readonly_witness :
  Py.startswith (Py.lower (Py.strip " /MyJoin")) "/start" = false /\
  (handle_message d1 alice " /MyJoin" 10).1 = d1.
Proof.
  assert (Hs : Py.startswith (Py.lower (Py.strip " /MyJoin")) "/start" = false)
    by reflexivity.
  split; [exact Hs |].
  apply (handle_message_readonly d1 alice " /MyJoin" 10 Hs).
Defined.

Lemma sum_lamports_double_count_witness :
  @sum_lamports py_num_ints (JObj kvs_twice) = Ok 200000000%Z.
Proof.
  rewrite (@sum_lamports_double_count py_num_ints kvs_twice items_half);
    [vm_compute | ..]; reflexivity.
Defined.

End ExtraWitnesses.
